(** * DocStack: the client layer and the store orchestration, embedded in Rocq

    The first part embeds the TypeScript client of the repository
    (lib/api.ts, stores/authStore.ts, stores/docstoreStore.ts and the search
    page) as state-passing functions over an explicit world.  The second
    part models the server-side orchestration (query fan-out, upload with
    duplicate detection, reindex, cascade delete, pipeline rendering) from
    its specification.  The theorems come last. *)

From stdpp Require Import base list gmap strings sorting.
From Stdlib Require Import Ascii SpecFloat DecimalString DecimalPos DecimalN.

Unset Default Proof Using.
Set Warnings "-clear-no-such-hyp".

(** ** JavaScript strings and JSON values *)
Module Js.

(** A JS string is a sequence of UTF-16 code units. *)
Abbreviation str := (list N).

(** A string literal of the source (ASCII only). *)
Definition lit (s : string) : str :=
  (λ a, N_of_ascii a) <$> String.list_ascii_of_string s.

(** ToString of a non-negative integer, as in [`${response.status}`]. *)
Definition decimal (n : N) : str :=
  lit (NilZero.string_of_uint (N.to_uint n)).

Arguments lit _ : simpl never.
Arguments decimal _ : simpl never.

(** WhiteSpace and LineTerminator code units of ECMAScript. *)
Definition is_white_space (c : N) : bool :=
  bool_decide (c ∈ [9; 10; 11; 12; 13; 32; 160; 5760; 8232; 8233;
                    8239; 8287; 12288; 65279]%N)
  || ((8192 <=? c)%N && (c <=? 8202)%N).

Fixpoint trimStart (s : str) : str :=
  match s with
  | [] => []
  | c :: t => if is_white_space c then trimStart t else s
  end.

Definition trimEnd (s : str) : str := reverse (trimStart (reverse s)).

(** [String.prototype.trim] *)
Definition trim (s : str) : str := trimEnd (trimStart s).

(** Truthiness of a string: only the empty string is falsy. *)
Definition str_truthy (s : str) : bool :=
  match s with [] => false | _ => true end.

(** The result of [JSON.parse]; numbers are IEEE 754 doubles. *)
#[warnings="-register-all"]
Inductive json : Type :=
| JNull
| JBool (b : bool)
| JNum (x : spec_float)
| JStr (s : str)
| JArr (xs : list json)
| JObj (fields : list (str * json)).

Definition is_falsy_number (x : spec_float) : bool :=
  match x with
  | S754_zero _ | S754_nan => true
  | _ => false
  end.

(** ToBoolean *)
Definition truthy (j : json) : bool :=
  match j with
  | JNull => false
  | JBool b => b
  | JNum x => negb (is_falsy_number x)
  | JStr s => str_truthy s
  | JArr _ | JObj _ => true
  end.

(** The value bound to [k] in the field list of a parsed object: a later
    duplicate of a key overrides an earlier one. *)
Fixpoint field (k : str) (fields : list (str * json)) : option json :=
  match fields with
  | [] => None
  | (k', v) :: rest =>
      match field k rest with
      | Some w => Some w
      | None => if decide (k' = k) then Some v else None
      end
  end.

(** The text of an error message.  [Text s] is the string [s];
    [ToStringOf j] is ToString of a non-string JSON value; the last two are
    the engine's own texts. *)
Inductive message : Type :=
| Text (s : str)
| ToStringOf (j : json)
| EngineNullProperty
| EngineInvalidJson.

Inductive error_name : Type := Error | TypeError | SyntaxError.

(** A thrown value: every value thrown in the embedded code is an instance
    of [Error] with a name and a message, and nothing else. *)
Record thrown : Type := Thrown { name : error_name; message_of : message }.

(** [x.k] for a key [k] that no prototype defines (the client reads
    [detail] and [results]): [None] is [undefined]; reading a property of
    [null] throws. *)
Definition get (j : json) (k : str) : thrown + option json :=
  match j with
  | JNull => inl (Thrown TypeError EngineNullProperty)
  | JObj fields => inr (field k fields)
  | _ => inr None
  end.

(** The message of [new Error(v)] for a JSON value [v]. *)
Definition to_message (v : json) : message :=
  match v with
  | JStr s => Text s
  | _ => ToStringOf v
  end.

End Js.

Import Js.

(** ** Effects: computations that return or throw, over a mutable world *)
Module Eff.

Inductive outcome (A : Type) : Type :=
| Returned (a : A)
| Threw (e : thrown).
Arguments Returned {A} a.
Arguments Threw {A} e.

(** An [async] function run to completion from the world [w]. *)
Definition M (W A : Type) : Type := W → outcome A * W.

Definition ret {W A} (a : A) : M W A := λ w, (Returned a, w).
Definition throw {W A} (e : thrown) : M W A := λ w, (Threw e, w).
Definition bind {W A B} (m : M W A) (k : A → M W B) : M W B :=
  λ w, match m w with
       | (Returned a, w') => k a w'
       | (Threw e, w') => (Threw e, w')
       end.

(** A state update such as a zustand [set] or a React state setter. *)
Definition update {W} (f : W → W) : M W unit := λ w, (Returned tt, f w).

(** [try { m } finally { f }] for a finaliser [f] that only updates state. *)
Definition finally {W A} (m : M W A) (f : W → W) : M W A :=
  λ w, let '(r, w') := m w in (r, f w').

(** [try { m } catch (error) { h error }] *)
Definition catch {W A} (m : M W A) (h : thrown → M W A) : M W A :=
  λ w, match m w with
       | (Returned a, w') => (Returned a, w')
       | (Threw e, w') => h e w'
       end.

(** Running a computation of a component inside a larger world. *)
Definition lift {W V A} (proj : W → V) (put : V → W → W) (m : M V A) : M W A :=
  λ w, let '(r, v) := m (proj w) in (r, put v w).

Notation "'let*' x := m 'in' k" := (bind m (λ x, k))
  (at level 10, x name, m at level 100, k at level 200).
Notation "m ;; k" := (bind m (λ _, k))
  (at level 100, k at level 200, right associativity).

End Eff.
Import Eff.

(** ** lib/api.ts: the HTTP client *)
Module Api.

Inductive http_method : Type := GET | POST | PATCH | DELETE.

(** A [File] handed to [FormData]: its name and its bytes. *)
Record file : Type := File { file_name : str; file_bytes : list N }.

(** The body of a request: none, [JSON.stringify] of a value, or a
    multipart form whose [files] entries are the given files in order. *)
Inductive request_body : Type :=
| NoBody
| JsonBody (j : json)
| FormData (files : list file).

Record http_request : Type := HttpRequest {
  url : str;
  method : http_method;
  headers : list (str * str);
  body : request_body
}.

(** What [fetch] settles to: a rejection (network failure, timeout of the
    connection) or a response.  [response_body] is [Some j] when the body
    text parses as JSON and [None] when [response.json()] rejects. *)
Record response : Type := Response { status : N; response_body : option json }.

Inductive fetch_outcome : Type :=
| Rejected (e : thrown)
| Responded (r : response).

(** [response.ok] *)
Definition ok (r : response) : bool :=
  (200 <=? status r)%N && (status r <=? 299)%N.

(** The fields of the [ApiClient] instance and its surroundings.
    [has_window] is [typeof window !== "undefined"]; [localStorage] is only
    touched when it holds. *)
Record client : Type := Client {
  token : option str;
  has_window : bool;
  localStorage : gmap str str
}.

(** The world the client code runs in: the API client, the requests sent so
    far (oldest first). *)
Record world : Type := World {
  api : client;
  sent : list http_request
}.

Definition modify_api (f : client → client) : world → world :=
  λ w, World (f (api w)) (sent w).

Definition setToken (t : str) (c : client) : client :=
  Client (Some t) (has_window c)
         (if has_window c then <[lit "token" := t]> (localStorage c)
          else localStorage c).

Definition clearToken (c : client) : client :=
  Client None (has_window c)
         (if has_window c then delete (lit "token") (localStorage c)
          else localStorage c).

(** [if (this.token)]: [null] and the empty string are falsy. *)
Definition authorization (c : client) : list (str * str) :=
  match token c with
  | Some t =>
      if str_truthy t then [(lit "Authorization", lit "Bearer " ++ t)] else []
  | None => []
  end.

(** The [options] argument of [request]; no caller passes headers. *)
Record request_init : Type := RequestInit {
  init_method : http_method;
  init_body : request_body
}.

Definition default_init : request_init := RequestInit GET NoBody.

(** The failure branch shared by [request] and [uploadDocuments]:
    [const error = await response.json().catch(() => ({detail: ...}));
     throw new Error(error.detail || fallback)]. *)
Definition http_failure (fallback : str) (r : response) : thrown :=
  let error :=
    match response_body r with
    | Some j => j
    | None =>
        JObj [(lit "detail",
               JStr (lit "HTTP error! status: " ++ decimal (status r)))]
    end in
  match get error (lit "detail") with
  | inl e => e
  | inr (Some d) =>
      if truthy d then Thrown Error (to_message d)
      else Thrown Error (Text fallback)
  | inr None => Thrown Error (Text fallback)
  end.

(** What the client does with a settled [fetch]: a rejection propagates; a
    response that is not ok throws; otherwise [response.json()]. *)
Definition settle (fallback : str) (o : fetch_outcome) : outcome json :=
  match o with
  | Rejected e => Threw e
  | Responded r =>
      if ok r then
        match response_body r with
        | Some j => Returned j
        | None => Threw (Thrown SyntaxError EngineInvalidJson)
        end
      else Threw (http_failure fallback r)
  end.

(** The error a caller sees for a response [r] that is not ok, case by
    case on the body: the status appears only when the body is not JSON,
    the [detail] of the body only when it is truthy. *)
Definition surfaces (fallback : str) (r : response) (e : thrown) : Prop :=
  match response_body r with
  | None =>
      e = Thrown Error
            (Text (lit "HTTP error! status: " ++ decimal (status r)))
  | Some JNull => e = Thrown TypeError EngineNullProperty
  | Some (JObj fields) =>
      match field (lit "detail") fields with
      | Some d =>
          e = Thrown Error (if truthy d then to_message d else Text fallback)
      | None => e = Thrown Error (Text fallback)
      end
  | Some _ => e = Thrown Error (Text fallback)
  end.

(** What a call that got the fetch outcome [o] must end in: a rejection is
    passed on as it is, a response that is not ok is thrown as the error
    above and never returned. *)
Definition failure_surfaced (fallback : str) (o : fetch_outcome)
    (res : outcome json) : Prop :=
  match o with
  | Rejected e => res = Threw e
  | Responded r =>
      ok r = false → ∃ e, res = Threw e ∧ surfaces fallback r e
  end.

Section Client.

(** The server address and the network: what [fetch] settles to for each
    request. *)
Variable baseUrl : str.
Variable net : http_request → fetch_outcome.

Definition fetch (req : http_request) : M world fetch_outcome :=
  λ w, (Returned (net req), World (api w) (sent w ++ [req])).

(** [private async request<T>(endpoint, options)] *)
Definition request (endpoint : str) (options : request_init) : M world json :=
  λ w,
    let hdrs := (lit "Content-Type", lit "application/json")
                  :: authorization (api w) in
    let req := HttpRequest (baseUrl ++ endpoint) (init_method options)
                           hdrs (init_body options) in
    bind (fetch req) (λ o w', (settle (lit "API request failed") o, w')) w.

(** [async logout()] *)
Definition logout : M world json :=
  finally (request (lit "/api/v1/auth/logout") (RequestInit POST NoBody))
          (modify_api clearToken).

(** [async deleteDocstore(id)] *)
Definition deleteDocstore (id : str) : M world json :=
  request (lit "/api/v1/docstores/" ++ id) (RequestInit DELETE NoBody).

(** [async uploadDocuments(docstoreId, files)] *)
Definition uploadDocuments (docstoreId : str) (files : list file) : M world json :=
  λ w,
    let req := HttpRequest
                 (baseUrl ++ lit "/api/v1/docstores/" ++ docstoreId
                          ++ lit "/documents/upload")
                 POST (authorization (api w)) (FormData files) in
    bind (fetch req) (λ o w', (settle (lit "Document upload failed") o, w')) w.

(** A finite JS number that is an integer, as [top_k]. *)
Definition number_of_N (n : N) : spec_float :=
  match n with
  | N0 => S754_zero false
  | Npos p => S754_finite false p 0
  end.

Definition query_body (query : str) (topK : N) : list (str * json) :=
  [(lit "query", JStr query); (lit "top_k", JNum (number_of_N topK))].

(** [async queryDocstore(docstoreId, query, topK = 5)] *)
Definition queryDocstore (docstoreId query : str) (topK : N) : M world json :=
  request (lit "/api/v1/docstores/" ++ docstoreId ++ lit "/query")
          (RequestInit POST (JsonBody (JObj (query_body query topK)))).

(** [async queryMultiDocstores(docstoreIds, query, topK = 5)] *)
Definition queryMultiDocstores (docstoreIds : list str) (query : str)
    (topK : N) : M world json :=
  request (lit "/api/v1/query/multi")
          (RequestInit POST
             (JsonBody (JObj ((lit "docstore_ids", JArr (JStr <$> docstoreIds))
                              :: query_body query topK)))).

End Client.

End Api.

(** ** stores/authStore.ts *)
Module AuthStore.

Record AuthState : Type := {
  user : option json;
  isLoading : bool;
  error : option message
}.

(** The initial state of [create<AuthState>]. *)
Definition initial : AuthState :=
  {| user := None; isLoading := false; error := None |}.

(** The auth store together with the API client it calls. *)
Record world : Type := World { net_world : Api.world; state : AuthState }.

Definition set (f : AuthState → AuthState) : M world unit :=
  update (λ w, World (net_world w) (f (state w))).

Definition call {A} (m : M Api.world A) : M world A :=
  lift net_world (λ v w, World v (state w)) m.

Section Store.
Variable baseUrl : str.
Variable net : Api.http_request → Api.fetch_outcome.

(** [logout: async () => { ... }] *)
Definition logout : M world unit :=
  set (λ s, {| user := user s; isLoading := true; error := error s |}) ;;
  catch
    (call (Api.logout baseUrl net) ;;
     set (λ s, {| user := None; isLoading := false; error := error s |}))
    (λ _,
     set (λ s, {| user := None; isLoading := false; error := error s |})).

End Store.
End AuthStore.

(** ** stores/docstoreStore.ts *)
Module DocstoreStore.

Record Docstore : Type := {
  id : str;
  name : str;
  slug : str;
  description : option str;
  index_name : str;
  embedding_model : str;
  chunking_strategy : str;
  chunk_size : spec_float;
  chunk_overlap : spec_float;
  document_count : spec_float;
  chunk_count : spec_float;
  total_size_bytes : spec_float;
  is_active : bool;
  created_at : str;
  updated_at : str
}.

Record DocstoreState : Type := {
  docstores : list Docstore;
  currentDocstore : option Docstore;
  isLoading : bool;
  error : option message
}.

Definition initial : DocstoreState :=
  {| docstores := []; currentDocstore := None;
     isLoading := false; error := None |}.

Record world : Type := World { net_world : Api.world; state : DocstoreState }.

Definition set (f : DocstoreState → DocstoreState) : M world unit :=
  update (λ w, World (net_world w) (f (state w))).

Definition call {A} (m : M Api.world A) : M world A :=
  lift net_world (λ v w, World v (state w)) m.

Section Store.
Variable baseUrl : str.
Variable net : Api.http_request → Api.fetch_outcome.

(** [deleteDocstore: async (id) => { ... }] *)
Definition deleteDocstore (id' : str) : M world unit :=
  set (λ s, {| docstores := docstores s; currentDocstore := currentDocstore s;
               isLoading := true; error := None |}) ;;
  catch
    (call (Api.deleteDocstore baseUrl net id') ;;
     set (λ s, {| docstores := filter (λ d, id d ≠ id') (docstores s);
                  currentDocstore :=
                    match currentDocstore s with
                    | Some c => if decide (id c = id') then None else Some c
                    | None => None
                    end;
                  isLoading := false; error := error s |}))
    (λ e,
     set (λ s, {| docstores := docstores s;
                  currentDocstore := currentDocstore s;
                  isLoading := false; error := Some (message_of e) |}) ;;
     throw e).

End Store.
End DocstoreStore.

(** ** The search page: [handleSearch] and [toggleDocstore] *)
Module SearchPage.

(** The [useState] cells of the component.  [results] holds whatever value
    the server answered with. *)
Record PageState : Type := {
  query : str;
  selectedDocstores : list str;
  results : json;
  isSearching : bool;
  hasSearched : bool
}.

Definition initial : PageState :=
  {| query := []; selectedDocstores := []; results := JArr [];
     isSearching := false; hasSearched := false |}.

(** The page, the list [docstores] it reads from the docstore store, and
    the API client. *)
Record world : Type := World {
  net_world : Api.world;
  docstores : list DocstoreStore.Docstore;
  page : PageState
}.

Definition set (f : PageState → PageState) : M world unit :=
  update (λ w, World (net_world w) (docstores w) (f (page w))).

Definition call {A} (m : M Api.world A) : M world A :=
  lift net_world (λ v w, World v (docstores w) (page w)) m.

Definition setResults (r : json) : M world unit :=
  set (λ p, {| query := query p; selectedDocstores := selectedDocstores p;
               results := r; isSearching := isSearching p;
               hasSearched := hasSearched p |}).

Definition setIsSearching (b : bool) : PageState → PageState :=
  λ p, {| query := query p; selectedDocstores := selectedDocstores p;
          results := results p; isSearching := b;
          hasSearched := hasSearched p |}.

Definition setHasSearched (b : bool) : PageState → PageState :=
  λ p, {| query := query p; selectedDocstores := selectedDocstores p;
          results := results p; isSearching := isSearching p;
          hasSearched := b |}.

(** [searchResults.results || searchResults] *)
Definition results_of (searchResults : json) : M world json :=
  match get searchResults (lit "results") with
  | inl e => throw e
  | inr (Some r) => ret (if truthy r then r else searchResults)
  | inr None => ret searchResults
  end.

Section Page.
Variable baseUrl : str.
Variable net : Api.http_request → Api.fetch_outcome.

(** The body of the [try] block: the choice of the endpoint.  The early
    [return] of the source leaves the block without reaching
    [setResults(searchResults.results || searchResults)]. *)
Definition search (w : world) : M world unit :=
  let q := query (page w) in
  let show (searchResults : json) : M world unit :=
    (let* r := results_of searchResults in setResults r) in
  match selectedDocstores (page w) with
  | [] =>
      let allDocstoreIds := DocstoreStore.id <$> docstores w in
      match allDocstoreIds with
      | [] => setResults (JArr []) ;; set (setIsSearching false)
      | _ =>
          let* searchResults :=
            call (Api.queryMultiDocstores baseUrl net allDocstoreIds q 10) in
          show searchResults
      end
  | [docstoreId] =>
      let* searchResults :=
        call (Api.queryDocstore baseUrl net docstoreId q 10) in
      show searchResults
  | selected =>
      let* searchResults :=
        call (Api.queryMultiDocstores baseUrl net selected q 10) in
      show searchResults
  end.

(** [const handleSearch = async (e) => { ... }]; the closure reads [query],
    [selectedDocstores] and [docstores] of the render it was created in. *)
Definition handleSearch : M world unit :=
  λ w,
    if negb (str_truthy (trim (query (page w)))) then ret tt w
    else
      (set (setIsSearching true) ;;
       set (setHasSearched true) ;;
       finally
         (catch (search w) (λ _, setResults (JArr [])))
         (λ w', World (net_world w') (docstores w')
                      (setIsSearching false (page w')))) w.

End Page.

(** [toggleDocstore]: the updater passed to [setSelectedDocstores]. *)
Definition toggle (docstoreId : str) (prev : list str) : list str :=
  if bool_decide (docstoreId ∈ prev)
  then filter (λ id, id ≠ docstoreId) prev
  else prev ++ [docstoreId].

Definition toggleDocstore (docstoreId : str) : M world unit :=
  set (λ p, {| query := query p;
               selectedDocstores := toggle docstoreId (selectedDocstores p);
               results := results p; isSearching := isSearching p;
               hasSearched := hasSearched p |}).

(** The request is the single-store query of [docstoreId]. *)
Definition is_single_query (baseUrl docstoreId q : str)
    (req : Api.http_request) : Prop :=
  Api.url req = baseUrl ++ lit "/api/v1/docstores/" ++ docstoreId
                        ++ lit "/query" ∧
  Api.method req = Api.POST ∧
  Api.body req = Api.JsonBody (JObj (Api.query_body q 10)).

(** The request is the multi-store query of the ids [docstoreIds]. *)
Definition is_multi_query (baseUrl : str) (docstoreIds : list str) (q : str)
    (req : Api.http_request) : Prop :=
  Api.url req = baseUrl ++ lit "/api/v1/query/multi" ∧
  Api.method req = Api.POST ∧
  Api.body req =
    Api.JsonBody (JObj ((lit "docstore_ids", JArr (JStr <$> docstoreIds))
                        :: Api.query_body q 10)).

(** The requests sent so far in a world of the page. *)
Definition calls (w : world) : list Api.http_request :=
  Api.sent (net_world w).

(** The selection after [toggleDocstore id] has run in the world [w]. *)
Definition selection_after (docstoreId : str) (w : world) : list str :=
  selectedDocstores (page (toggleDocstore docstoreId w).2).

End SearchPage.

(** ** The store orchestrator

    The server side of the repository (the FastAPI services behind
    [/api/v1]) is described by the specification, sections 4.1 to 4.5. *)
Module Orchestrator.

(** *** query *)
Section Query.

(** Scores and their order: [score_leb a b] is [a <= b]. *)
Variable score : Type.
Variable score_leb : score → score → bool.

(** An entry of the ranked list the Execution Client returns. *)
Record hit : Type := Hit { documentRef : str; content : str; hit_score : score }.

(** An entry of the orchestrator's answer: the hit and the store it came
    from. *)
Record entry : Type := Entry { source_store : str; entry_hit : hit }.

Definition entry_score (e : entry) : score := hit_score (entry_hit e).

(** The Execution Client's single-store query endpoint, an external
    collaborator: the ranked list for a store, a text and a limit. *)
Variable exec_query : str → str → nat → list hit.

(** Modelled from the spec: the single-store call of [query], whose code
    (the query service) is not among the sources.  The answer of the
    endpoint, each hit tagged with the store. *)
Definition query_store (storeId text : str) (topK : nat) : list entry :=
  Entry storeId <$> exec_query storeId text topK.

(** Modelled from the spec: the fan-out of [query] over several stores, one
    call per store in the order the ids are given, the answers
    concatenated. *)
Definition fan_out (storeIds : list str) (text : str) (topK : nat)
    : list entry :=
  storeIds ≫= (λ storeId, query_store storeId text topK).

(** [insert_desc e l] puts [e] in front of the first entry whose score is
    not above its own. *)
Fixpoint insert_desc (e : entry) (l : list entry) : list entry :=
  match l with
  | [] => [e]
  | e' :: rest =>
      if score_leb (entry_score e') (entry_score e) then e :: l
      else e' :: insert_desc e rest
  end.

(** Modelled from the spec: the re-sort by descending score of the merged
    answers, stable in the input order. *)
Definition sort_desc (l : list entry) : list entry := foldr insert_desc [] l.

(** Modelled from the spec: [query(storeIds, text, topK)] of the Store
    Orchestrator.  For one id the single-store endpoint; for several the
    fan-out, merged, sorted by descending score and capped at [topK]. *)
Definition query (storeIds : list str) (text : str) (topK : nat)
    : list entry :=
  match storeIds with
  | [storeId] => query_store storeId text topK
  | _ => take topK (sort_desc (fan_out storeIds text topK))
  end.

(** Two scores tie when each is at most the other. *)
Definition tied (a b : score) : bool := score_leb a b && score_leb b a.

(** [a] may stand before [b] in a descending list. *)
Definition above (a b : entry) : Prop :=
  score_leb (entry_score b) (entry_score a) = true.

(** The entry's score ties with [s]. *)
Definition ties_with (s : score) (e : entry) : Prop :=
  tied (entry_score e) s = true.

#[global] Instance ties_with_dec s e : Decision (ties_with s e).
Proof. unfold ties_with. apply _. Defined.

End Query.

Arguments Hit {score} _ _ _.
Arguments Entry {score} _ _.
Arguments documentRef {score} _.
Arguments content {score} _.
Arguments hit_score {score} _.
Arguments source_store {score} _.
Arguments entry_hit {score} _.
Arguments entry_score {score} _.
Arguments query_store {score} _ _ _ _.
Arguments fan_out {score} _ _ _ _.
Arguments insert_desc {score} _ _ _.
Arguments sort_desc {score} _ _.
Arguments query {score} _ _ _ _ _.
Arguments tied {score} _ _ _.
Arguments above {score} _ _ _.
Arguments ties_with {score} _ _ _.

(** *** The persistent data model (specification, section 3) *)

Inductive status : Type := pending | processing | completed | failed.

Record Document : Type := {
  doc_id : nat;
  doc_store : str;
  filename : str;
  checksum : str;
  doc_status : status;
  error_detail : option str;
  doc_chunks : nat
}.

Inductive pipeline_type : Type := indexing | querying.

(** [target_index] is the index the deployed definition points at. *)
Record Pipeline : Type := {
  pipeline_store : str;
  ptype : pipeline_type;
  target_index : str;
  version : nat;
  deployed : bool
}.

Record Store : Type := {
  store_id : str;
  slug : str;
  index_name : str
}.

(** An index of the search engine: whether it answers queries, and the
    references of the documents it holds. *)
Record index : Type := { ready : bool; held : list str }.

(** The metadata tables, the indices of the search engine and the queue of
    index deletions scheduled for later. *)
Record system : Type := {
  stores : list Store;
  documents : list Document;
  pipelines : list Pipeline;
  indices : gmap str index;
  deletion_queue : list str
}.

#[global] Instance status_eq_dec : EqDecision status.
Proof. solve_decision. Defined.

(** *** uploadDocuments *)
Section Upload.

(** The content checksum and the Execution Client's indexing endpoint, both
    external: the endpoint accepts a file or rejects it with an error
    text. *)
Variable content_checksum : list N → str.
Variable submitForIndexing : str → Api.file → option str.

Inductive upload_outcome : Type := indexed | duplicate | upload_failed.

(** A document of the store with this checksum that is not [failed]. *)
Definition live_copy (storeId c : str) (d : Document) : Prop :=
  doc_store d = storeId ∧ checksum d = c ∧ doc_status d ≠ failed.

#[local] Instance live_copy_dec storeId c d : Decision (live_copy storeId c d).
Proof. unfold live_copy. apply _. Defined.

Definition fresh_doc_id (docs : list Document) : nat :=
  S (foldr Nat.max 0 (doc_id <$> docs)).

Definition set_status (st : status) (err : option str) (d : Document)
    : Document :=
  {| doc_id := doc_id d; doc_store := doc_store d; filename := filename d;
     checksum := checksum d; doc_status := st; error_detail := err;
     doc_chunks := doc_chunks d |}.

(** Modelled from the spec: the per-file step of [uploadDocuments], whose
    code (the documents service) is not among the sources.  A file whose
    checksum a live document of the store already has is skipped as a
    duplicate; otherwise a [pending] row is persisted, the file is
    submitted, and the row becomes [processing] or [failed]. *)
Definition upload_file (storeId : str) (f : Api.file) (docs : list Document)
    : upload_outcome * list Document :=
  let c := content_checksum (Api.file_bytes f) in
  if decide (Exists (live_copy storeId c) docs) then (duplicate, docs)
  else
    let row := {| doc_id := fresh_doc_id docs; doc_store := storeId;
                  filename := Api.file_name f; checksum := c;
                  doc_status := pending; error_detail := None;
                  doc_chunks := 0 |} in
    match submitForIndexing storeId f with
    | None => (indexed, docs ++ [set_status processing None row])
    | Some err => (upload_failed, docs ++ [set_status failed (Some err) row])
    end.

(** Modelled from the spec: [uploadDocuments(storeId, files)], the files
    handled one after the other, with one outcome per file. *)
Fixpoint uploadDocuments (storeId : str) (files : list Api.file)
    (docs : list Document) : list upload_outcome * list Document :=
  match files with
  | [] => ([], docs)
  | f :: rest =>
      let '(o, docs1) := upload_file storeId f docs in
      let '(os, docs2) := uploadDocuments storeId rest docs1 in
      (o :: os, docs2)
  end.

(** Modelled from the spec: the runtime's asynchronous completion for the
    document [id], which sets the chunk count and the final status of a
    [processing] row. *)
Definition complete (id : nat) (chunks : nat) (final : status)
    (err : option str) (docs : list Document) : list Document :=
  (λ d, if decide (doc_id d = id ∧ doc_status d = processing)
        then {| doc_id := doc_id d; doc_store := doc_store d;
                filename := filename d; checksum := checksum d;
                doc_status := final; error_detail := err;
                doc_chunks := chunks |}
        else d) <$> docs.

(** The documents of a store with a given checksum that count as indexed. *)
Definition live_copies (storeId c : str) (docs : list Document)
    : list Document :=
  filter (live_copy storeId c) docs.

End Upload.

(** *** deleteStore *)

Inductive delete_result : Type := deleted | PartialFailure.

(** Modelled from the spec: [deleteStore(id)], whose code (the docstores
    service and the cascade of the schema) is not among the sources.  The
    Store row goes, with it the Documents and Pipelines that reference it;
    then the backing index is deleted, and a failure of that step
    ([index_deleted = false]) is reported as [PartialFailure]. *)
Definition deleteStore (index_deleted : bool) (id : str) (s : system)
    : delete_result * system :=
  let backing := index_name <$> filter (λ st, store_id st = id) (stores s) in
  let s' := {| stores := filter (λ st, store_id st ≠ id) (stores s);
               documents := filter (λ d, doc_store d ≠ id) (documents s);
               pipelines := filter (λ p, pipeline_store p ≠ id) (pipelines s);
               indices := indices s;
               deletion_queue := deletion_queue s |} in
  if index_deleted then
    (deleted,
     {| stores := stores s'; documents := documents s';
        pipelines := pipelines s';
        indices := foldr delete (indices s) backing;
        deletion_queue := deletion_queue s |})
  else (PartialFailure, s').

(** Every row that belongs to a store belongs to a store that exists. *)
Definition no_orphans (s : system) : Prop :=
  (∀ d, d ∈ documents s → ∃ st, st ∈ stores s ∧ store_id st = doc_store d) ∧
  (∀ p, p ∈ pipelines s → ∃ st, st ∈ stores s ∧ store_id st = pipeline_store p).

(** *** reindex *)

(** What the collaborators answer during one reindex: the clock, whether
    the search engine creates the index, whether the pipelines can be
    written to the runtime, the document references the rebuild puts into
    the new index, and whether the search engine answers queries on the
    new index. *)
Record environment : Type := {
  now : N;
  index_created : bool;
  pipelines_written : bool;
  rebuilt : list str;
  new_index_ready : bool
}.

(** Where a running reindex stands. *)
Inductive progress : Type :=
| Start
| Created (new : str)
| Redeployed (new : str)
| Rebuilt (new : str)
| Confirmed (new : str)
| CutOver (old new : str)
| Finished
| Aborted.

(** [prefix-{slug}-{unixTimestamp}] *)
Definition make_index_name (slug : str) (timestamp : N) : str :=
  lit "docstack-" ++ slug ++ lit "-" ++ decimal timestamp.

Definition find_store (id : str) (s : system) : option Store :=
  head (filter (λ st, store_id st = id) (stores s)).

(** [createIndex(name, dimension)]: creating an index that exists is a
    no-op success; a new index is empty, and [is_ready] tells whether the
    search engine answers queries on it. *)
Definition createIndex (name : str) (is_ready : bool) (ix : gmap str index)
    : gmap str index :=
  match ix !! name with
  | Some _ => ix
  | None => <[name := {| ready := is_ready; held := [] |}]> ix
  end.

(** The rebuild through the redeployed indexing pipeline: the index [name]
    then holds [refs]. *)
Definition rebuild (name : str) (refs : list str) (ix : gmap str index)
    : gmap str index :=
  alter (λ i, {| ready := ready i; held := refs |}) name ix.

Definition queryable (name : str) (ix : gmap str index) : bool :=
  match ix !! name with
  | Some i => ready i
  | None => false
  end.

Definition redeploy (id new : str) (p : Pipeline) : Pipeline :=
  if decide (pipeline_store p = id)
  then {| pipeline_store := pipeline_store p; ptype := ptype p;
          target_index := new; version := S (version p); deployed := true |}
  else p.

Definition set_index_name (id new : str) (st : Store) : Store :=
  if decide (store_id st = id)
  then {| store_id := store_id st; slug := slug st; index_name := new |}
  else st.

(** Modelled from the spec: one step of [reindex(id)], whose code (the
    reindex endpoint) is not among the sources.  In the order of section
    4.1: allocate the new name and create the index; redeploy the pipelines
    so that they point at it; rebuild the index under the new name (the
    glossary: a reindex is the rebuilding of a store's index under a new
    name, which the redeployed indexing pipeline does); confirm that the
    new index is queryable; write the new name into the Store row (the
    cutover); schedule the deletion of the old index.  A failing
    collaborator aborts and leaves the Store row as it is. *)
Definition reindex_step (env : environment) (id : str)
    (c : progress * system) : progress * system :=
  let '(pc, s) := c in
  match pc with
  | Start =>
      match find_store id s with
      | None => (Aborted, s)
      | Some st =>
          let new := make_index_name (slug st) (now env) in
          if index_created env then
            (Created new,
             {| stores := stores s; documents := documents s;
                pipelines := pipelines s;
                indices := createIndex new (new_index_ready env) (indices s);
                deletion_queue := deletion_queue s |})
          else (Aborted, s)
      end
  | Created new =>
      if pipelines_written env then
        (Redeployed new,
         {| stores := stores s; documents := documents s;
            pipelines := redeploy id new <$> pipelines s;
            indices := indices s; deletion_queue := deletion_queue s |})
      else (Aborted, s)
  | Redeployed new =>
      (Rebuilt new,
       {| stores := stores s; documents := documents s;
          pipelines := pipelines s;
          indices := rebuild new (rebuilt env) (indices s);
          deletion_queue := deletion_queue s |})
  | Rebuilt new =>
      if queryable new (indices s) then (Confirmed new, s) else (Aborted, s)
  | Confirmed new =>
      match find_store id s with
      | None => (Aborted, s)
      | Some st =>
          (CutOver (index_name st) new,
           {| stores := set_index_name id new <$> stores s;
              documents := documents s; pipelines := pipelines s;
              indices := indices s; deletion_queue := deletion_queue s |})
      end
  | CutOver old new =>
      (Finished,
       {| stores := stores s; documents := documents s;
          pipelines := pipelines s; indices := indices s;
          deletion_queue := deletion_queue s ++ [old] |})
  | Finished => (Finished, s)
  | Aborted => (Aborted, s)
  end.

(** The reindex after [n] steps. *)
Definition reindex_run (env : environment) (id : str) (n : nat) (s : system)
    : progress * system :=
  Nat.iter n (reindex_step env id) (Start, s).

(** [reindex(id)] run to its end: six steps at most. *)
Definition reindex (env : environment) (id : str) (s : system)
    : progress * system :=
  reindex_run env id 6 s.

(** The scheduled deletions carried out. *)
Definition run_deletions (s : system) : system :=
  {| stores := stores s; documents := documents s; pipelines := pipelines s;
     indices := foldr delete (indices s) (deletion_queue s);
     deletion_queue := [] |}.

(** The pipeline that answers the queries on a store: its deployed query
    pipeline. *)
Definition answers_queries (id : str) (p : Pipeline) : Prop :=
  pipeline_store p = id ∧ ptype p = querying ∧ deployed p = true.

#[global] Instance pipeline_type_eq_dec : EqDecision pipeline_type.
Proof. solve_decision. Defined.

#[global] Instance answers_queries_dec id p : Decision (answers_queries id p).
Proof. unfold answers_queries. apply _. Defined.

Definition query_pipeline (id : str) (s : system) : option Pipeline :=
  head (filter (answers_queries id) (pipelines s)).

(** The index a query on the store is run against. *)
Definition served_by (id : str) (s : system) : option str :=
  target_index <$> query_pipeline id s.

(** What an index returns to a query: the documents it holds, or nothing
    at all when it is not there or does not answer. *)
Definition search (name : str) (ix : gmap str index) : option (list str) :=
  match ix !! name with
  | Some i => if ready i then Some (held i) else None
  | None => None
  end.

(** Modelled from the spec: what a query on store [id] returns.  The
    orchestrator calls the Execution Client's query endpoint of the store
    (sections 4.1, 4.5 and 6: one query endpoint per store), and the
    runtime runs the query pipeline deployed for the store against the
    index its definition names.  [None] is a [DependencyError] (no
    pipeline, no index, or an index that does not answer); [Some refs] are
    the documents the query can return, [Some []] being zero results. *)
Definition query_result (id : str) (s : system) : option (list str) :=
  match served_by id s with
  | Some name => search name (indices s)
  | None => None
  end.

Definition current_index (id : str) (s : system) : option str :=
  index_name <$> find_store id s.


End Orchestrator.

(** ** The pipeline template engine (specification, section 4.2) *)
Module TemplateEngine.

Inductive templateKind : Type := indexing | query.

Inductive parameter : Type :=
| index_name | embedding_model | embedding_dim
| chunk_strategy | chunk_length | chunk_overlap
| top_k | normalize | batch_size.

#[global] Instance parameter_eq_dec : EqDecision parameter.
Proof. solve_decision. Defined.

(** The parameter set of a store; an absent parameter is [None]. *)
Record storeParams : Type := {
  p_index_name : option str;
  p_embedding_model : option str;
  p_embedding_dim : option N;
  p_chunk_strategy : option str;
  p_chunk_length : option N;
  p_chunk_overlap : option N;
  p_top_k : option N;
  p_normalize : option bool;
  p_batch_size : option N
}.

Definition boolean (b : bool) : str := if b then lit "true" else lit "false".

(** The text a parameter renders to, when it is present. *)
Definition value (p : storeParams) (x : parameter) : option str :=
  match x with
  | index_name => p_index_name p
  | embedding_model => p_embedding_model p
  | embedding_dim => decimal <$> p_embedding_dim p
  | chunk_strategy => p_chunk_strategy p
  | chunk_length => decimal <$> p_chunk_length p
  | chunk_overlap => decimal <$> p_chunk_overlap p
  | top_k => decimal <$> p_top_k p
  | normalize => boolean <$> p_normalize p
  | batch_size => decimal <$> p_batch_size p
  end.

Definition all_parameters : list parameter :=
  [index_name; embedding_model; embedding_dim; chunk_strategy; chunk_length;
   chunk_overlap; top_k; normalize; batch_size].

Definition allowed_strategies : list str :=
  [lit "sentence"; lit "word"; lit "passage"].

Inductive ValidationError : Type :=
| MissingParameter (x : parameter)
| InvalidOption (x : parameter).

(** A template is literal text with placeholders. *)
Inductive segment : Type :=
| Literal (text : str)
| Placeholder (x : parameter).

#[global] Instance segment_eq_dec : EqDecision segment.
Proof. solve_decision. Defined.

Definition uses (x : parameter) (t : list segment) : Prop :=
  Placeholder x ∈ t.

(** The number of places where a template renders [x]. *)
Definition occurrences (x : parameter) (t : list segment) : nat :=
  length (filter (λ sg, sg = Placeholder x) t).

(** The parameter set [p] with the chunk length changed to [n] and nothing
    else. *)
Definition with_chunk_length (n : N) (p : storeParams) : storeParams :=
  {| p_index_name := p_index_name p;
     p_embedding_model := p_embedding_model p;
     p_embedding_dim := p_embedding_dim p;
     p_chunk_strategy := p_chunk_strategy p;
     p_chunk_length := Some n;
     p_chunk_overlap := p_chunk_overlap p;
     p_top_k := p_top_k p;
     p_normalize := p_normalize p;
     p_batch_size := p_batch_size p |}.

Definition validate (p : storeParams) : option ValidationError :=
  match filter (λ x, value p x = None) all_parameters with
  | x :: _ => Some (MissingParameter x)
  | [] =>
      match p_chunk_strategy p with
      | Some st =>
          if decide (st ∈ allowed_strategies) then None
          else Some (InvalidOption chunk_strategy)
      | None => Some (MissingParameter chunk_strategy)
      end
  end.

(** The text of one segment. *)
Definition piece (p : storeParams) (sg : segment) : str :=
  match sg with
  | Literal text => text
  | Placeholder x => default [] (value p x)
  end.

Definition pieces (p : storeParams) (t : list segment) : list str :=
  piece p <$> t.

Section Render.

(** The two templates, [indexing.yaml.j2] and [query.yaml.j2]. *)
Variable template : templateKind → list segment.

(** Modelled from the spec: [render(templateKind, storeParams)], whose code
    (the pipeline generator) is not among the sources.  The parameters are
    validated, then the template of the kind is filled in. *)
Definition render (k : templateKind) (p : storeParams)
    : ValidationError + str :=
  match validate p with
  | Some e => inl e
  | None => inr (concat (pieces p (template k)))
  end.

End Render.

(** Modelled from the spec: a template of the indexing kind.  The text of
    [indexing.yaml.j2] is not among the sources; docs/PLAN.md lists its
    components: a DocumentSplitter configured with split_by, split_length
    and split_overlap, a document embedder with a configurable model, and a
    writer into the store's index.  This template has a placeholder for
    each of them. *)
Definition indexing_template : list segment :=
  [Literal (lit "components:\n  splitter:\n    split_by: ");
   Placeholder chunk_strategy;
   Literal (lit "\n    split_length: "); Placeholder chunk_length;
   Literal (lit "\n    split_overlap: "); Placeholder chunk_overlap;
   Literal (lit "\n  embedder:\n    model: "); Placeholder embedding_model;
   Literal (lit "\n    normalize_embeddings: "); Placeholder normalize;
   Literal (lit "\n    batch_size: "); Placeholder batch_size;
   Literal (lit "\n  writer:\n    index: "); Placeholder index_name;
   Literal (lit "\n    embedding_dim: "); Placeholder embedding_dim;
   Literal (lit "\n")].

End TemplateEngine.

(** ** Sample data *)
Module Sample.

Definition baseUrl : str := lit "http://localhost:3081".

(** A server that answers every request with an empty result list. *)
Definition quiet_net (req : Api.http_request) : Api.fetch_outcome :=
  Api.Responded (Api.Response 200 (Some (JObj [(lit "results", JArr [])]))).

(** A server that is down. *)
Definition dead_net (req : Api.http_request) : Api.fetch_outcome :=
  Api.Rejected (Thrown TypeError (Text (lit "Failed to fetch"))).

Definition client : Api.world :=
  Api.World (Api.Client (Some (lit "t0k3n")) true
                        {[ lit "token" := lit "t0k3n" ]}) [].

Definition docstore (id' : str) : DocstoreStore.Docstore :=
  {| DocstoreStore.id := id'; DocstoreStore.name := id';
     DocstoreStore.slug := id'; DocstoreStore.description := None;
     DocstoreStore.index_name := lit "docstack-" ++ id' ++ lit "-1735488000";
     DocstoreStore.embedding_model := lit "BAAI/bge-large-en-v1.5";
     DocstoreStore.chunking_strategy := lit "sentence";
     DocstoreStore.chunk_size := S754_finite false 200 0;
     DocstoreStore.chunk_overlap := S754_finite false 20 0;
     DocstoreStore.document_count := S754_zero false;
     DocstoreStore.chunk_count := S754_zero false;
     DocstoreStore.total_size_bytes := S754_zero false;
     DocstoreStore.is_active := true;
     DocstoreStore.created_at := lit "2025-01-01T00:00:00Z";
     DocstoreStore.updated_at := lit "2025-01-01T00:00:00Z" |}.

(** A search page with the given text, selection and known docstores, and
    the results of an earlier search on display. *)
Definition search_page (q : str) (selected known : list str)
    : SearchPage.world :=
  SearchPage.World client (docstore <$> known)
    {| SearchPage.query := q; SearchPage.selectedDocstores := selected;
       SearchPage.results := JArr [JStr (lit "earlier")];
       SearchPage.isSearching := false; SearchPage.hasSearched := true |}.

(** The ranked lists of two stores, with integer scores. *)
Definition ranked (storeId text : str) (topK : nat) : list (Orchestrator.hit Z) :=
  if decide (storeId = lit "vwl") then
    [Orchestrator.Hit (lit "v1") (lit "supply") 90%Z;
     Orchestrator.Hit (lit "v2") (lit "demand") 70%Z]
  else if decide (storeId = lit "finance") then
    [Orchestrator.Hit (lit "f1") (lit "bonds") 90%Z;
     Orchestrator.Hit (lit "f2") (lit "equity") 80%Z]
  else [].

(** The template variables of docs/PLAN.md. *)
Definition params : TemplateEngine.storeParams :=
  {| TemplateEngine.p_index_name := Some (lit "docstack-vwl-1735488000");
     TemplateEngine.p_embedding_model := Some (lit "BAAI/bge-large-en-v1.5");
     TemplateEngine.p_embedding_dim := Some 768%N;
     TemplateEngine.p_chunk_strategy := Some (lit "sentence");
     TemplateEngine.p_chunk_length := Some 55%N;
     TemplateEngine.p_chunk_overlap := Some 5%N;
     TemplateEngine.p_top_k := Some 10%N;
     TemplateEngine.p_normalize := Some true;
     TemplateEngine.p_batch_size := Some 32%N |}.

(** A system with one store, [finance], whose index holds one document. *)
Definition finance : Orchestrator.Store :=
  {| Orchestrator.store_id := lit "s-1"; Orchestrator.slug := lit "finance";
     Orchestrator.index_name := lit "docstack-finance-1735488000" |}.

Definition system : Orchestrator.system :=
  {| Orchestrator.stores := [finance];
     Orchestrator.documents := [];
     Orchestrator.pipelines :=
       [{| Orchestrator.pipeline_store := lit "s-1";
           Orchestrator.ptype := Orchestrator.querying;
           Orchestrator.target_index := lit "docstack-finance-1735488000";
           Orchestrator.version := 1; Orchestrator.deployed := true |}];
     Orchestrator.indices :=
       {[ lit "docstack-finance-1735488000" :=
            {| Orchestrator.ready := true;
               Orchestrator.held := [lit "report.pdf"] |} ]};
     Orchestrator.deletion_queue := [] |}.

(** Two stores, [finance] and [vwl], each with a document and an indexing
    pipeline. *)
Definition row (n : nat) (storeId : str) : Orchestrator.Document :=
  {| Orchestrator.doc_id := n; Orchestrator.doc_store := storeId;
     Orchestrator.filename := lit "report.pdf";
     Orchestrator.checksum := lit "c1";
     Orchestrator.doc_status := Orchestrator.completed;
     Orchestrator.error_detail := None; Orchestrator.doc_chunks := 4 |}.

Definition pipe (storeId : str) : Orchestrator.Pipeline :=
  {| Orchestrator.pipeline_store := storeId;
     Orchestrator.ptype := Orchestrator.indexing;
     Orchestrator.target_index := lit "docstack-" ++ storeId ++ lit "-1";
     Orchestrator.version := 1; Orchestrator.deployed := true |}.

Definition two_stores : Orchestrator.system :=
  {| Orchestrator.stores :=
       [{| Orchestrator.store_id := lit "finance";
           Orchestrator.slug := lit "finance";
           Orchestrator.index_name := lit "docstack-finance-1" |};
        {| Orchestrator.store_id := lit "vwl"; Orchestrator.slug := lit "vwl";
           Orchestrator.index_name := lit "docstack-vwl-1" |}];
     Orchestrator.documents := [row 1 (lit "finance"); row 2 (lit "vwl")];
     Orchestrator.pipelines := [pipe (lit "finance"); pipe (lit "vwl")];
     Orchestrator.indices := ∅;
     Orchestrator.deletion_queue := [] |}.

(** The docstore store of the client showing these two stores. *)
Definition two_docstores : DocstoreStore.world :=
  DocstoreStore.World client
    {| DocstoreStore.docstores :=
         [docstore (lit "finance"); docstore (lit "vwl")];
       DocstoreStore.currentDocstore := None;
       DocstoreStore.isLoading := false;
       DocstoreStore.error := None |}.

(** All collaborators answer well, one day later. *)
Definition fair_weather : Orchestrator.environment :=
  {| Orchestrator.now := 1735574400; Orchestrator.index_created := true;
     Orchestrator.pipelines_written := true;
     Orchestrator.rebuilt := [lit "report.pdf"];
     Orchestrator.new_index_ready := true |}.

(** The clock still shows the second in which the index of [finance] was
    named. *)
Definition stale_clock : Orchestrator.environment :=
  {| Orchestrator.now := 1735488000; Orchestrator.index_created := true;
     Orchestrator.pipelines_written := true;
     Orchestrator.rebuilt := [lit "report.pdf"];
     Orchestrator.new_index_ready := true |}.

(** The new index never becomes queryable. *)
Definition index_not_ready : Orchestrator.environment :=
  {| Orchestrator.now := 1735574400; Orchestrator.index_created := true;
     Orchestrator.pipelines_written := true;
     Orchestrator.rebuilt := [];
     Orchestrator.new_index_ready := false |}.

End Sample.

(** ** lib/api.ts: the constructor and the remaining methods *)
Module Session.

(** [new ApiClient(baseUrl)]: where there is a window the token is read from
    [localStorage]; [getItem] answers [null] for a key that is not there. *)
Definition construct (has_window : bool) (storage : gmap str str)
    : Api.client :=
  Api.Client (if has_window then storage !! lit "token" else None)
             has_window storage.

Section Session.

(** The server address, and the server: what it answers to a request may
    depend on the requests this client has sent before. *)
Variable baseUrl : str.
Variable server : list Api.http_request → Api.http_request → Api.fetch_outcome.

(** [this.request(endpoint, options)] against that server. *)
Definition request (endpoint : str) (options : Api.request_init)
    : M Api.world json :=
  λ w, Api.request baseUrl (server (Api.sent w)) endpoint options w.

(** [async register(data)]; [data] is the value given to
    [JSON.stringify]. *)
Definition register (data : json) : M Api.world json :=
  request (lit "/api/v1/auth/register")
          (Api.RequestInit Api.POST (Api.JsonBody data)).

(** [setToken] takes a [string], and [LoginResponse] declares
    [access_token: string]; the client hands the value of the answer on
    without a check.  [as_string] is the reading of that value as a string
    ([None] is [undefined]). *)
Variable as_string : option json → str.

(** The body of [api.login({ email, password })]. *)
Definition credentials (email password : str) : json :=
  JObj [(lit "email", JStr email); (lit "password", JStr password)].

(** [async login(credentials)] *)
Definition login (email password : str) : M Api.world json :=
  let* response :=
    request (lit "/api/v1/auth/login")
            (Api.RequestInit Api.POST
               (Api.JsonBody (credentials email password))) in
  match get response (lit "access_token") with
  | inl e => throw e
  | inr token =>
      update (Api.modify_api (Api.setToken (as_string token))) ;;
      ret response
  end.

(** [async logout()] *)
Definition logout : M Api.world json :=
  finally (request (lit "/api/v1/auth/logout")
                   (Api.RequestInit Api.POST Api.NoBody))
          (Api.modify_api Api.clearToken).

(** [async verifyToken()] *)
Definition verifyToken : M Api.world json :=
  request (lit "/api/v1/auth/verify") Api.default_init.

(** [async getCurrentUser()] *)
Definition getCurrentUser : M Api.world json :=
  request (lit "/api/v1/auth/me") Api.default_init.

(** [async getDocstores()] *)
Definition getDocstores : M Api.world json :=
  request (lit "/api/v1/docstores/") Api.default_init.

(** [async createDocstore(data)] *)
Definition createDocstore (data : json) : M Api.world json :=
  request (lit "/api/v1/docstores/")
          (Api.RequestInit Api.POST (Api.JsonBody data)).

(** [async getDocstore(id)] *)
Definition getDocstore (id : str) : M Api.world json :=
  request (lit "/api/v1/docstores/" ++ id) Api.default_init.

(** [async updateDocstore(id, data)] *)
Definition updateDocstore (id : str) (data : json) : M Api.world json :=
  request (lit "/api/v1/docstores/" ++ id)
          (Api.RequestInit Api.PATCH (Api.JsonBody data)).

(** [async deleteDocstore(id)] *)
Definition deleteDocstore (id : str) : M Api.world json :=
  request (lit "/api/v1/docstores/" ++ id)
          (Api.RequestInit Api.DELETE Api.NoBody).

(** [async getDocuments(docstoreId)] *)
Definition getDocuments (docstoreId : str) : M Api.world json :=
  request (lit "/api/v1/docstores/" ++ docstoreId ++ lit "/documents/")
          Api.default_init.

(** [async uploadDocuments(docstoreId, files)] *)
Definition uploadDocuments (docstoreId : str) (files : list Api.file)
    : M Api.world json :=
  λ w, Api.uploadDocuments baseUrl (server (Api.sent w)) docstoreId files w.

(** [async getDocument(documentId)] *)
Definition getDocument (documentId : str) : M Api.world json :=
  request (lit "/api/v1/documents/" ++ documentId) Api.default_init.

(** [async deleteDocument(documentId)] *)
Definition deleteDocument (documentId : str) : M Api.world json :=
  request (lit "/api/v1/documents/" ++ documentId)
          (Api.RequestInit Api.DELETE Api.NoBody).

(** [async getPipelines(docstoreId)] *)
Definition getPipelines (docstoreId : str) : M Api.world json :=
  request (lit "/api/v1/docstores/" ++ docstoreId ++ lit "/pipelines/")
          Api.default_init.

(** [async createPipeline(docstoreId, pipelineType)] *)
Definition createPipeline (docstoreId pipelineType : str)
    : M Api.world json :=
  request (lit "/api/v1/docstores/" ++ docstoreId
             ++ lit "/pipelines/generate")
          (Api.RequestInit Api.POST
             (Api.JsonBody (JObj [(lit "pipeline_type", JStr pipelineType)]))).

(** [async deployPipeline(pipelineId)] *)
Definition deployPipeline (pipelineId : str) : M Api.world json :=
  request (lit "/api/v1/pipelines/" ++ pipelineId ++ lit "/deploy")
          (Api.RequestInit Api.POST Api.NoBody).

End Session.

(** The headers [request] puts on a request of the client [c]. *)
Definition json_headers (c : Api.client) : list (str * str) :=
  (lit "Content-Type", lit "application/json") :: Api.authorization c.

End Session.

(** ** stores/authStore.ts: the remaining actions *)
Module AuthActions.

(** A value written to [user]: [null] and [undefined] both count as no
    user. *)
Definition nullable (v : option json) : option json :=
  match v with
  | None | Some JNull => None
  | Some j => Some j
  end.

(** The body of [api.register({ email, password, full_name: fullName })]:
    [JSON.stringify] leaves out a property that is [undefined]. *)
Definition register_data (email password : str) (fullName : option str)
    : json :=
  JObj ([(lit "email", JStr email); (lit "password", JStr password)]
          ++ match fullName with
             | Some n => [(lit "full_name", JStr n)]
             | None => []
             end).

Section Actions.

Variable baseUrl : str.
Variable server : list Api.http_request → Api.http_request → Api.fetch_outcome.

Variable as_string : option json → str.

(** [login: async (email, password) => { ... }] *)
Definition login (email password : str) : M AuthStore.world unit :=
  AuthStore.set (λ s, {| AuthStore.user := AuthStore.user s;
                         AuthStore.isLoading := true;
                         AuthStore.error := None |}) ;;
  catch
    (let* response :=
       AuthStore.call
         (Session.login baseUrl server as_string email password) in
     match get response (lit "user") with
     | inl e => throw e
     | inr u =>
         AuthStore.set (λ s, {| AuthStore.user := nullable u;
                                AuthStore.isLoading := false;
                                AuthStore.error := AuthStore.error s |})
     end)
    (λ e,
     AuthStore.set (λ s, {| AuthStore.user := AuthStore.user s;
                            AuthStore.isLoading := false;
                            AuthStore.error := Some (message_of e) |}) ;;
     throw e).

(** [register: async (email, password, fullName?) => { ... }] *)
Definition register (email password : str) (fullName : option str)
    : M AuthStore.world unit :=
  AuthStore.set (λ s, {| AuthStore.user := AuthStore.user s;
                         AuthStore.isLoading := true;
                         AuthStore.error := None |}) ;;
  catch
    (AuthStore.call
       (Session.register baseUrl server
          (register_data email password fullName)) ;;
     AuthStore.call (Session.login baseUrl server as_string email password) ;;
     let* user := AuthStore.call (Session.getCurrentUser baseUrl server) in
     AuthStore.set (λ s, {| AuthStore.user := nullable (Some user);
                            AuthStore.isLoading := false;
                            AuthStore.error := AuthStore.error s |}))
    (λ e,
     AuthStore.set (λ s, {| AuthStore.user := AuthStore.user s;
                            AuthStore.isLoading := false;
                            AuthStore.error := Some (message_of e) |}) ;;
     throw e).

(** [checkAuth: async () => { ... }] *)
Definition checkAuth : M AuthStore.world unit :=
  AuthStore.set (λ s, {| AuthStore.user := AuthStore.user s;
                         AuthStore.isLoading := true;
                         AuthStore.error := AuthStore.error s |}) ;;
  catch
    (let* user := AuthStore.call (Session.verifyToken baseUrl server) in
     AuthStore.set (λ s, {| AuthStore.user := nullable (Some user);
                            AuthStore.isLoading := false;
                            AuthStore.error := AuthStore.error s |}))
    (λ _,
     AuthStore.set (λ s, {| AuthStore.user := None;
                            AuthStore.isLoading := false;
                            AuthStore.error := AuthStore.error s |})).

End Actions.

(** [clearError: () => set({ error: null })] *)
Definition clearError : M AuthStore.world unit :=
  AuthStore.set (λ s, {| AuthStore.user := AuthStore.user s;
                         AuthStore.isLoading := AuthStore.isLoading s;
                         AuthStore.error := None |}).

End AuthActions.

(** ** stores/docstoreStore.ts: the remaining actions *)
Module DocstoreActions.

Import DocstoreStore.

Section Actions.

Variable baseUrl : str.
Variable server : list Api.http_request → Api.http_request → Api.fetch_outcome.

(** The store keeps the answers of the server at the types it declares for
    its state, [Docstore] and [Docstore[]]; the client hands the parsed
    body on without a check.  [as_Docstore] and [as_Docstores] are these
    readings of an answer. *)
Variable as_Docstore : json → Docstore.
Variable as_Docstores : json → list Docstore.

(** The [catch] branch of the actions that do not rethrow. *)
Definition record_error (e : thrown) : M world unit :=
  set (λ s, {| docstores := docstores s;
               currentDocstore := currentDocstore s;
               isLoading := false; error := Some (message_of e) |}).

Definition start : M world unit :=
  set (λ s, {| docstores := docstores s;
               currentDocstore := currentDocstore s;
               isLoading := true; error := None |}).

(** [fetchDocstores: async () => { ... }] *)
Definition fetchDocstores : M world unit :=
  start ;;
  catch
    (let* answer := call (Session.getDocstores baseUrl server) in
     set (λ s, {| docstores := as_Docstores answer;
                  currentDocstore := currentDocstore s;
                  isLoading := false; error := error s |}))
    record_error.

(** [createDocstore: async (data) => { ... }] *)
Definition createDocstore (data : json) : M world Docstore :=
  start ;;
  catch
    (let* answer := call (Session.createDocstore baseUrl server data) in
     let docstore := as_Docstore answer in
     set (λ s, {| docstores := docstores s ++ [docstore];
                  currentDocstore := currentDocstore s;
                  isLoading := false; error := error s |}) ;;
     ret docstore)
    (λ e, record_error e ;; throw e).

(** [getDocstore: async (id) => { ... }] *)
Definition getDocstore (id' : str) : M world unit :=
  start ;;
  catch
    (let* answer := call (Session.getDocstore baseUrl server id') in
     set (λ s, {| docstores := docstores s;
                  currentDocstore := Some (as_Docstore answer);
                  isLoading := false; error := error s |}))
    record_error.

(** [updateDocstore: async (id, data) => { ... }] *)
Definition updateDocstore (id' : str) (data : json) : M world unit :=
  start ;;
  catch
    (let* answer := call (Session.updateDocstore baseUrl server id' data) in
     let docstore := as_Docstore answer in
     set (λ s, {| docstores :=
                    (λ d, if decide (id d = id') then docstore else d)
                      <$> docstores s;
                  currentDocstore :=
                    match currentDocstore s with
                    | Some c =>
                        if decide (id c = id') then Some docstore else Some c
                    | None => None
                    end;
                  isLoading := false; error := error s |}))
    (λ e, record_error e ;; throw e).

(** [deleteDocstore: async (id) => { ... }], against the server with
    memory. *)
Definition deleteDocstore (id' : str) : M world unit :=
  start ;;
  catch
    (call (Session.deleteDocstore baseUrl server id') ;;
     set (λ s, {| docstores := filter (λ d, id d ≠ id') (docstores s);
                  currentDocstore :=
                    match currentDocstore s with
                    | Some c => if decide (id c = id') then None else Some c
                    | None => None
                    end;
                  isLoading := false; error := error s |}))
    (λ e, record_error e ;; throw e).

End Actions.

(** [clearError: () => set({ error: null })] *)
Definition clearError : M world unit :=
  set (λ s, {| docstores := docstores s;
               currentDocstore := currentDocstore s;
               isLoading := isLoading s; error := None |}).

End DocstoreActions.

(** ** The docstore detail page: loading, upload and deletion of documents *)
Module DetailPage.

(** The [useState] cells and the file input behind [fileInputRef]:
    [fileInput] is [None] while the ref is [null], else the value of the
    input. *)
Record PageState : Type := {
  documents : json;
  isLoading : bool;
  isUploading : bool;
  isUploadDialogOpen : bool;
  selectedFiles : list Api.file;
  fileInput : option str
}.

Definition initial : PageState :=
  {| documents := JArr []; isLoading := true; isUploading := false;
     isUploadDialogOpen := false; selectedFiles := []; fileInput := None |}.

(** The page, the docstore store with the API client, and the texts shown
    by [alert], oldest first. *)
Record world : Type := World {
  store : DocstoreStore.world;
  page : PageState;
  alerts : list str
}.

Definition set (f : PageState → PageState) : M world unit :=
  update (λ w, World (store w) (f (page w)) (alerts w)).

Definition in_store {A} (m : M DocstoreStore.world A) : M world A :=
  lift store (λ v w, World v (page w) (alerts w)) m.

Definition call {A} (m : M Api.world A) : M world A :=
  in_store (DocstoreStore.call m).

Definition alert (text : str) : M world unit :=
  update (λ w, World (store w) (page w) (alerts w ++ [text])).

Definition setDocuments (docs : json) (p : PageState) : PageState :=
  {| documents := docs; isLoading := isLoading p; isUploading := isUploading p;
     isUploadDialogOpen := isUploadDialogOpen p;
     selectedFiles := selectedFiles p; fileInput := fileInput p |}.

Definition setIsLoading (b : bool) (p : PageState) : PageState :=
  {| documents := documents p; isLoading := b; isUploading := isUploading p;
     isUploadDialogOpen := isUploadDialogOpen p;
     selectedFiles := selectedFiles p; fileInput := fileInput p |}.

Definition setIsUploading (b : bool) (p : PageState) : PageState :=
  {| documents := documents p; isLoading := isLoading p; isUploading := b;
     isUploadDialogOpen := isUploadDialogOpen p;
     selectedFiles := selectedFiles p; fileInput := fileInput p |}.

Definition setIsUploadDialogOpen (b : bool) (p : PageState) : PageState :=
  {| documents := documents p; isLoading := isLoading p;
     isUploading := isUploading p; isUploadDialogOpen := b;
     selectedFiles := selectedFiles p; fileInput := fileInput p |}.

Definition setSelectedFiles (files : list Api.file) (p : PageState)
    : PageState :=
  {| documents := documents p; isLoading := isLoading p;
     isUploading := isUploading p;
     isUploadDialogOpen := isUploadDialogOpen p;
     selectedFiles := files; fileInput := fileInput p |}.

(** [if (fileInputRef.current) fileInputRef.current.value = ""] *)
Definition clearFileInput (p : PageState) : PageState :=
  {| documents := documents p; isLoading := isLoading p;
     isUploading := isUploading p;
     isUploadDialogOpen := isUploadDialogOpen p;
     selectedFiles := selectedFiles p;
     fileInput :=
       match fileInput p with Some _ => Some [] | None => None end |}.

(** [handleFileSelect]: [files] is [e.target.files], [None] when it is
    [null]. *)
Definition handleFileSelect (files : option (list Api.file)) : M world unit :=
  match files with
  | Some fs => set (setSelectedFiles fs)
  | None => ret tt
  end.

Section Page.

Variable baseUrl : str.
Variable server : list Api.http_request → Api.http_request → Api.fetch_outcome.
Variable as_Docstore : json → DocstoreStore.Docstore.

(** [params.id] of the route. *)
Variable docstoreId : str.

(** [const loadDocstoreData = async () => { ... }] *)
Definition loadDocstoreData : M world unit :=
  set (setIsLoading true) ;;
  finally
    (catch
       (in_store
          (DocstoreActions.getDocstore baseUrl server as_Docstore docstoreId) ;;
        let* docs := call (Session.getDocuments baseUrl server docstoreId) in
        set (setDocuments docs))
       (λ _, ret tt))
    (λ w, World (store w) (setIsLoading false (page w)) (alerts w)).

(** [const handleUpload = async () => { ... }]; the closure reads
    [selectedFiles] of the render it was created in. *)
Definition handleUpload : M world unit :=
  λ w,
    match selectedFiles (page w) with
    | [] => ret tt w
    | files =>
        (set (setIsUploading true) ;;
         finally
           (catch
              (call (Session.uploadDocuments baseUrl server docstoreId files) ;;
               set (setSelectedFiles []) ;;
               set (setIsUploadDialogOpen false) ;;
               loadDocstoreData ;;
               set clearFileInput)
              (λ _,
               alert (lit "Failed to upload documents. Please try again.")))
           (λ w', World (store w') (setIsUploading false (page w'))
                        (alerts w'))) w
    end.

(** [const handleDeleteDocument = async (documentId) => { ... }];
    [confirmed] is the answer to [confirm(...)]. *)
Definition handleDeleteDocument (confirmed : bool) (documentId : str)
    : M world unit :=
  if negb confirmed then ret tt
  else
    catch
      (call (Session.deleteDocument baseUrl server documentId) ;;
       loadDocstoreData)
      (λ _, alert (lit "Failed to delete document. Please try again.")).

End Page.

(** The requests sent so far in a world of the page. *)
Definition calls (w : world) : list Api.http_request :=
  Api.sent (DocstoreStore.net_world (store w)).

(** The client of a world of the page. *)
Definition client (w : world) : Api.client :=
  Api.api (DocstoreStore.net_world (store w)).

(** The two requests of a reload, from the client [c]. *)
Definition docstore_request (baseUrl docstoreId : str) (c : Api.client)
    : Api.http_request :=
  Api.HttpRequest (baseUrl ++ lit "/api/v1/docstores/" ++ docstoreId)
                  Api.GET (Session.json_headers c) Api.NoBody.

Definition documents_request (baseUrl docstoreId : str) (c : Api.client)
    : Api.http_request :=
  Api.HttpRequest
    (baseUrl ++ lit "/api/v1/docstores/" ++ docstoreId ++ lit "/documents/")
    Api.GET (Session.json_headers c) Api.NoBody.

(** The upload and the deletion request. *)
Definition upload_request (baseUrl docstoreId : str) (files : list Api.file)
    (c : Api.client) : Api.http_request :=
  Api.HttpRequest
    (baseUrl ++ lit "/api/v1/docstores/" ++ docstoreId
             ++ lit "/documents/upload")
    Api.POST (Api.authorization c) (Api.FormData files).

Definition delete_request (baseUrl documentId : str) (c : Api.client)
    : Api.http_request :=
  Api.HttpRequest (baseUrl ++ lit "/api/v1/documents/" ++ documentId)
                  Api.DELETE (Session.json_headers c) Api.NoBody.

End DetailPage.

(** ** The dashboard: creating a docstore from the form *)
Module Dashboard.

(** The form of the create dialog. *)
Record FormData : Type := {
  name : str;
  description : str;
  embedding_model : str;
  chunking_strategy : str;
  chunk_size : spec_float;
  chunk_overlap : spec_float
}.

(** The form as [useState] starts it and as a successful creation resets
    it. *)
Definition blank_form : FormData :=
  {| name := []; description := [];
     embedding_model := lit "sentence-transformers/all-MiniLM-L6-v2";
     chunking_strategy := lit "sentence";
     chunk_size := S754_finite false 200 0;
     chunk_overlap := S754_finite false 20 0 |}.

(** The form as [JSON.stringify] sees it, the properties in the order of
    the object literal. *)
Definition form_json (f : FormData) : json :=
  JObj [(lit "name", JStr (name f));
        (lit "description", JStr (description f));
        (lit "embedding_model", JStr (embedding_model f));
        (lit "chunking_strategy", JStr (chunking_strategy f));
        (lit "chunk_size", JNum (chunk_size f));
        (lit "chunk_overlap", JNum (chunk_overlap f))].

Record PageState : Type := {
  isCreateDialogOpen : bool;
  formData : FormData
}.

Record world : Type := World {
  store : DocstoreStore.world;
  page : PageState
}.

Definition set (f : PageState → PageState) : M world unit :=
  update (λ w, World (store w) (f (page w))).

Definition in_store {A} (m : M DocstoreStore.world A) : M world A :=
  lift store (λ v w, World v (page w)) m.

Section Page.

Variable baseUrl : str.
Variable server : list Api.http_request → Api.http_request → Api.fetch_outcome.
Variable as_Docstore : json → DocstoreStore.Docstore.

(** [const handleCreateDocstore = async (e) => { ... }] *)
Definition handleCreateDocstore : M world unit :=
  λ w,
    (in_store DocstoreActions.clearError ;;
     catch
       (in_store
          (DocstoreActions.createDocstore baseUrl server as_Docstore
             (form_json (formData (page w)))) ;;
        set (λ p, {| isCreateDialogOpen := false;
                     formData := formData p |}) ;;
        set (λ p, {| isCreateDialogOpen := isCreateDialogOpen p;
                     formData := blank_form |}))
       (λ _, ret tt)) w.

End Page.

End Dashboard.

(** ** The pipelines page: loading, generating and deploying pipelines *)
Module PipelinesPage.

Inductive PipelineType : Type := indexing | query.

(** The string of the union type ["indexing" | "query"]. *)
Definition type_name (t : PipelineType) : str :=
  match t with
  | indexing => lit "indexing"
  | query => lit "query"
  end.

Record PageState : Type := {
  pipelines : json;
  isLoading : bool;
  isCreating : bool;
  isDeploying : option str;
  isCreateDialogOpen : bool;
  selectedPipelineType : PipelineType
}.

Definition initial : PageState :=
  {| pipelines := JArr []; isLoading := true; isCreating := false;
     isDeploying := None; isCreateDialogOpen := false;
     selectedPipelineType := indexing |}.

Record world : Type := World {
  store : DocstoreStore.world;
  page : PageState;
  alerts : list str
}.

Definition set (f : PageState → PageState) : M world unit :=
  update (λ w, World (store w) (f (page w)) (alerts w)).

Definition in_store {A} (m : M DocstoreStore.world A) : M world A :=
  lift store (λ v w, World v (page w) (alerts w)) m.

Definition call {A} (m : M Api.world A) : M world A :=
  in_store (DocstoreStore.call m).

Definition alert (text : str) : M world unit :=
  update (λ w, World (store w) (page w) (alerts w ++ [text])).

Definition setPipelines (ps : json) (p : PageState) : PageState :=
  {| pipelines := ps; isLoading := isLoading p; isCreating := isCreating p;
     isDeploying := isDeploying p;
     isCreateDialogOpen := isCreateDialogOpen p;
     selectedPipelineType := selectedPipelineType p |}.

Definition setIsLoading (b : bool) (p : PageState) : PageState :=
  {| pipelines := pipelines p; isLoading := b; isCreating := isCreating p;
     isDeploying := isDeploying p;
     isCreateDialogOpen := isCreateDialogOpen p;
     selectedPipelineType := selectedPipelineType p |}.

Definition setIsCreating (b : bool) (p : PageState) : PageState :=
  {| pipelines := pipelines p; isLoading := isLoading p; isCreating := b;
     isDeploying := isDeploying p;
     isCreateDialogOpen := isCreateDialogOpen p;
     selectedPipelineType := selectedPipelineType p |}.

Definition setIsDeploying (v : option str) (p : PageState) : PageState :=
  {| pipelines := pipelines p; isLoading := isLoading p;
     isCreating := isCreating p; isDeploying := v;
     isCreateDialogOpen := isCreateDialogOpen p;
     selectedPipelineType := selectedPipelineType p |}.

Definition setIsCreateDialogOpen (b : bool) (p : PageState) : PageState :=
  {| pipelines := pipelines p; isLoading := isLoading p;
     isCreating := isCreating p; isDeploying := isDeploying p;
     isCreateDialogOpen := b;
     selectedPipelineType := selectedPipelineType p |}.

Section Page.

Variable baseUrl : str.
Variable server : list Api.http_request → Api.http_request → Api.fetch_outcome.
Variable as_Docstore : json → DocstoreStore.Docstore.
Variable docstoreId : str.

(** [const loadPipelines = async () => { ... }] *)
Definition loadPipelines : M world unit :=
  set (setIsLoading true) ;;
  finally
    (catch
       (in_store
          (DocstoreActions.getDocstore baseUrl server as_Docstore docstoreId) ;;
        let* pipelineData :=
          call (Session.getPipelines baseUrl server docstoreId) in
        set (setPipelines pipelineData))
       (λ _, ret tt))
    (λ w, World (store w) (setIsLoading false (page w)) (alerts w)).

(** [const handleCreatePipeline = async () => { ... }] *)
Definition handleCreatePipeline : M world unit :=
  λ w,
    (set (setIsCreating true) ;;
     finally
       (catch
          (call (Session.createPipeline baseUrl server docstoreId
                   (type_name (selectedPipelineType (page w)))) ;;
           set (setIsCreateDialogOpen false) ;;
           loadPipelines)
          (λ _, alert (lit "Failed to create pipeline. Please try again.")))
       (λ w', World (store w') (setIsCreating false (page w')) (alerts w'))) w.

(** [const handleDeployPipeline = async (pipelineId) => { ... }] *)
Definition handleDeployPipeline (pipelineId : str) : M world unit :=
  set (setIsDeploying (Some pipelineId)) ;;
  finally
    (catch
       (call (Session.deployPipeline baseUrl server pipelineId) ;;
        loadPipelines)
       (λ _, alert (lit "Failed to deploy pipeline. Please try again.")))
    (λ w, World (store w) (setIsDeploying None (page w)) (alerts w)).

End Page.

Definition calls (w : world) : list Api.http_request :=
  Api.sent (DocstoreStore.net_world (store w)).

End PipelinesPage.

(** ** What the search page shows *)
Module SearchView.

(** The value [handleSearch] leaves in [results] when the query call ended
    in [o]: the empty list after any failure, also when the answer is
    [null]; else the [results] of the answer when that is truthy, else the
    answer itself. *)
Definition displayed (o : outcome json) : json :=
  match o with
  | Threw _ => JArr []
  | Returned JNull => JArr []
  | Returned (JObj fields) =>
      match field (lit "results") fields with
      | Some r => if truthy r then r else JObj fields
      | None => JObj fields
      end
  | Returned j => j
  end.

(** The selection after the checkboxes of [clicks] have been clicked one
    after the other, starting from the selection [sel]. *)
Definition after_clicks (sel : list str) (clicks : list str) : list str :=
  foldl (λ prev docstoreId, SearchPage.toggle docstoreId prev) sel clicks.

(** How often [docstoreId] was clicked. *)
Definition clicked (docstoreId : str) (clicks : list str) : nat :=
  length (filter (λ c, c = docstoreId) clicks).

End SearchView.

(** ** Servers and worlds to run the client against *)
Module Fixture.

(** The reading of a value as a string: a string is itself. *)
Definition as_string (v : option json) : str :=
  match v with
  | Some (JStr s) => s
  | _ => []
  end.

(** The reading of an answer as a docstore: the docstore of its [id]. *)
Definition as_Docstore (j : json) : DocstoreStore.Docstore :=
  Sample.docstore
    match j with
    | JObj fields => as_string (field (lit "id") fields)
    | _ => []
    end.

(** A server that answers every request with a 200 and the body [j]. *)
Definition answering (j : json)
    : list Api.http_request → Api.http_request → Api.fetch_outcome :=
  λ _ _, Api.Responded (Api.Response 200 (Some j)).

(** A server that cannot be reached. *)
Definition failure : thrown := Thrown TypeError (Text (lit "Failed to fetch")).

Definition down
    : list Api.http_request → Api.http_request → Api.fetch_outcome :=
  λ _ _, Api.Rejected failure.

(** A server that answers a DELETE with 204 and no body. *)
Definition no_content (req : Api.http_request) : Api.fetch_outcome :=
  Api.Responded (Api.Response 204 None).

(** The names of the files uploaded by the requests of [history]. *)
Definition uploaded (history : list Api.http_request) : list json :=
  history ≫= λ req,
    match Api.body req with
    | Api.FormData files => (λ f, JStr (Api.file_name f)) <$> files
    | _ => []
    end.

(** A server with memory: it answers every request with the names of the
    files uploaded so far. *)
Definition storing
    : list Api.http_request → Api.http_request → Api.fetch_outcome :=
  λ history _,
    Api.Responded (Api.Response 200 (Some (JArr (uploaded history)))).

(** The answer to a login. *)
Definition login_fields : list (str * json) :=
  [(lit "access_token", JStr (lit "fresh"));
   (lit "token_type", JStr (lit "bearer"));
   (lit "user", JObj [(lit "email", JStr (lit "ada@example.org"))])].

(** The docstore store holding one docstore, which is also the current
    one. *)
Definition store_world : DocstoreStore.world :=
  DocstoreStore.World Sample.client
    {| DocstoreStore.docstores := [Sample.docstore (lit "vwl")];
       DocstoreStore.currentDocstore := Some (Sample.docstore (lit "vwl"));
       DocstoreStore.isLoading := false;
       DocstoreStore.error := None |}.

Definition report : Api.file := Api.File (lit "report.pdf") [37; 80; 68; 70]%N.

(** The detail page with the upload dialog open and the given files
    selected. *)
Definition detail_page (files : list Api.file) : DetailPage.world :=
  DetailPage.World store_world
    {| DetailPage.documents := JArr [];
       DetailPage.isLoading := false;
       DetailPage.isUploading := false;
       DetailPage.isUploadDialogOpen := true;
       DetailPage.selectedFiles := files;
       DetailPage.fileInput := Some (lit "C:\fakepath\report.pdf") |}
    [].

End Fixture.

(** * Theorems *)

(** ** Strings *)

Lemma trimStart_nil_iff (s : str) :
  trimStart s = [] ↔ Forall (λ c, is_white_space c = true) s.
Proof.
  induction s as [|c s IH]; simpl.
  - split; [constructor | done].
  - destruct (is_white_space c) eqn:Hc.
    + rewrite IH. split; [by constructor | by inversion 1].
    + split; [done | inversion 1; congruence].
Qed.

Lemma trimStart_head (s : str) :
  match trimStart s with
  | [] => True
  | c :: _ => is_white_space c = false
  end.
Proof.
  induction s as [|c s IH]; simpl; [done |].
  by destruct (is_white_space c) eqn:Hc.
Qed.

(** [query.trim()] is the empty string exactly when the text is empty or
    consists of white space only. *)
Lemma trim_nil_iff (s : str) :
  trim s = [] ↔ Forall (λ c, is_white_space c = true) s.
Proof.
  unfold trim, trimEnd. split.
  - intros H. apply (f_equal reverse) in H.
    rewrite reverse_involutive, reverse_nil in H.
    apply trimStart_nil_iff in H.
    apply Forall_reverse in H. rewrite reverse_involutive in H.
    apply trimStart_nil_iff.
    pose proof (trimStart_head s) as Hhd.
    destruct (trimStart s) as [|c t]; [done |].
    inversion H; congruence.
  - intros H. apply trimStart_nil_iff in H. by rewrite H.
Qed.

Lemma blank_iff (s : str) :
  str_truthy (trim s) = false ↔ Forall (λ c, is_white_space c = true) s.
Proof.
  rewrite <- trim_nil_iff. destruct (trim s); simpl; split; congruence.
Qed.

(** ** The search page *)

Import SearchPage.

Lemma toggle_present (id : str) (prev : list str) :
  id ∈ prev → toggle id prev = filter (λ x, x ≠ id) prev.
Proof. intros Hin. unfold toggle. by rewrite bool_decide_eq_true_2. Qed.

Lemma toggle_absent (id : str) (prev : list str) :
  id ∉ prev → toggle id prev = prev ++ [id].
Proof. intros Hin. unfold toggle. by rewrite bool_decide_eq_false_2. Qed.

Lemma toggle_twice_elem (id : str) (prev : list str) (x : str) :
  x ∈ toggle id (toggle id prev) ↔ x ∈ prev.
Proof.
  destruct (decide (id ∈ prev)) as [Hin|Hin].
  - rewrite (toggle_present id prev Hin), toggle_absent.
    + rewrite elem_of_app, list_elem_of_filter, list_elem_of_singleton.
      destruct (decide (x = id)) as [->|]; naive_solver.
    + rewrite list_elem_of_filter. naive_solver.
  - rewrite (toggle_absent id prev Hin), toggle_present
      by (apply elem_of_app; right; by left).
    rewrite list_elem_of_filter, elem_of_app, list_elem_of_singleton.
    split; [naive_solver |]. intros Hx. split; [congruence | by left].
Qed.

(** C9: [toggleDocstore] removes the id from the selection when it is
    there and appends it otherwise, and toggling the same id twice gives a
    selection with the same set of ids as the original one. *)
Theorem toggleDocstore_twice (id : str) (w : world) :
  let prev := selectedDocstores (page w) in
  (id ∈ prev →
     selection_after id w = filter (λ x, x ≠ id) prev ∧
     id ∉ selection_after id w) ∧
  (id ∉ prev → selection_after id w = prev ++ [id]) ∧
  (∀ x, x ∈ selection_after id (toggleDocstore id w).2 ↔ x ∈ prev).
Proof.
  unfold selection_after, toggleDocstore, set, update; simpl.
  split_and!.
  - intros Hin. rewrite toggle_present by done.
    split; [done |]. rewrite list_elem_of_filter. naive_solver.
  - intros Hin. by rewrite toggle_absent.
  - intros x. apply toggle_twice_elem.
Qed.

Ltac run_page :=
  unfold handleSearch, search, results_of, setResults, set, call, lift,
    Api.queryDocstore, Api.queryMultiDocstores, Api.request, Api.fetch,
    finally, catch, bind, update, ret, throw, calls; cbn.

Lemma search_single (baseUrl : str) net (w : world) (docstoreId : str) :
  str_truthy (trim (query (page w))) = true →
  selectedDocstores (page w) = [docstoreId] →
  ∃ req, calls (handleSearch baseUrl net w).2 = calls w ++ [req] ∧
         is_single_query baseUrl docstoreId (query (page w)) req.
Proof.
  intros Hq Hsel. run_page. rewrite Hq, Hsel; cbn.
  destruct (Api.settle _ _) as [j|e]; cbn;
    [destruct (get j _) as [e|[r|]]; cbn |];
    (eexists; split; [reflexivity | by split_and!]).
Qed.

Lemma search_multi (baseUrl : str) net (w : world) (a b : str)
    (rest : list str) :
  str_truthy (trim (query (page w))) = true →
  selectedDocstores (page w) = a :: b :: rest →
  ∃ req, calls (handleSearch baseUrl net w).2 = calls w ++ [req] ∧
         is_multi_query baseUrl (a :: b :: rest) (query (page w)) req.
Proof.
  intros Hq Hsel. run_page. rewrite Hq, Hsel; cbn.
  destruct (Api.settle _ _) as [j|e]; cbn;
    [destruct (get j _) as [e|[r|]]; cbn |];
    (eexists; split; [reflexivity | by split_and!]).
Qed.

Lemma search_all (baseUrl : str) net (w : world) :
  str_truthy (trim (query (page w))) = true →
  selectedDocstores (page w) = [] →
  docstores w ≠ [] →
  ∃ req, calls (handleSearch baseUrl net w).2 = calls w ++ [req] ∧
         is_multi_query baseUrl (DocstoreStore.id <$> docstores w)
                        (query (page w)) req.
Proof.
  intros Hq Hsel Hds. run_page. rewrite Hq, Hsel; cbn.
  destruct (docstores w) as [|d ds] eqn:Hd; [done |]; cbn.
  destruct (Api.settle _ _) as [j|e]; cbn;
    [destruct (get j _) as [e|[r|]]; cbn |];
    (eexists; split; [reflexivity | by split_and!]).
Qed.

Lemma search_nothing (baseUrl : str) net (w : world) :
  str_truthy (trim (query (page w))) = true →
  selectedDocstores (page w) = [] →
  docstores w = [] →
  handleSearch baseUrl net w =
    (Returned tt,
     World (net_world w) []
           {| query := query (page w); selectedDocstores := [];
              results := JArr []; isSearching := false;
              hasSearched := true |}).
Proof.
  intros Hq Hsel Hds. run_page. rewrite Hq, Hsel, Hds; cbn.
  by rewrite Hsel.
Qed.

(** C1, as amended: a search with a text that is not blank sends exactly one
    request when a store can be queried: the single-store query for a
    selection of one id, the multi-store query with the whole selection for
    a selection of several ids, the multi-store query with the ids of all
    known docstores when nothing is selected and a docstore is known; when
    nothing is selected and no docstore is known it sends no request. *)
Theorem handleSearch_endpoint (baseUrl : str) net (w : world) :
  str_truthy (trim (query (page w))) = true →
  let q := query (page w) in
  let sel := selectedDocstores (page w) in
  let after := calls (handleSearch baseUrl net w).2 in
  (∀ docstoreId, sel = [docstoreId] →
     ∃ req, after = calls w ++ [req] ∧
            is_single_query baseUrl docstoreId q req) ∧
  (1 < length sel →
     ∃ req, after = calls w ++ [req] ∧ is_multi_query baseUrl sel q req) ∧
  (sel = [] → docstores w ≠ [] →
     ∃ req, after = calls w ++ [req] ∧
            is_multi_query baseUrl (DocstoreStore.id <$> docstores w) q req) ∧
  (sel = [] → docstores w = [] → after = calls w).
Proof.
  intros Hq q sel after. subst q sel after. split_and!.
  - intros docstoreId Hsel. by apply search_single.
  - intros Hlen.
    destruct (selectedDocstores (page w)) as [|a [|b rest]] eqn:Hsel;
      simpl in Hlen; [lia | lia |].
    by apply search_multi.
  - intros Hsel Hds. by apply search_all.
  - intros Hsel Hds. by rewrite search_nothing.
Qed.

Lemma handleSearch_endpoint_witness :
  let w := Sample.search_page (lit "inflation") [lit "vwl"; lit "finance"]
                              [lit "vwl"; lit "finance"; lit "marketing"] in
  ∃ req, calls (handleSearch Sample.baseUrl Sample.quiet_net w).2
           = calls w ++ [req] ∧
         is_multi_query Sample.baseUrl [lit "vwl"; lit "finance"]
                        (lit "inflation") req.
Proof.
  intros w.
  apply (handleSearch_endpoint Sample.baseUrl Sample.quiet_net w);
    [vm_compute; reflexivity | simpl; lia].
Defined.

(** C1, as stated, fails: with nothing selected and no docstore known, a
    search for a text that is not blank sends no request at all, so none to
    the multi-store endpoint. *)
Lemma handleSearch_no_known_store :
  let w := Sample.search_page (lit "inflation") [] [] in
  str_truthy (trim (query (page w))) = true ∧
  selectedDocstores (page w) = [] ∧
  ¬ ∃ req, req ∈ calls (handleSearch Sample.baseUrl Sample.quiet_net w).2 ∧
           Api.url req = Sample.baseUrl ++ lit "/api/v1/query/multi".
Proof.
  intros w. split_and!; [by vm_compute | done |].
  intros (req & Hin & _). revert Hin.
  replace (calls (handleSearch Sample.baseUrl Sample.quiet_net w).2)
    with (@nil Api.http_request) by (by vm_compute).
  apply not_elem_of_nil.
Qed.

(** C10: a search with nothing selected while no docstore exists sets the
    results to the empty list and sends no request; a search whose text is
    empty or white space only sends no request and changes nothing, the
    results included. *)
Theorem handleSearch_guards (baseUrl : str) net (w : world) :
  (Forall (λ c, is_white_space c = true) (query (page w)) →
     handleSearch baseUrl net w = (Returned tt, w)) ∧
  (¬ Forall (λ c, is_white_space c = true) (query (page w)) →
   selectedDocstores (page w) = [] → docstores w = [] →
     let '(r, w') := handleSearch baseUrl net w in
     r = Returned tt ∧
     results (page w') = JArr [] ∧
     calls w' = calls w ∧
     isSearching (page w') = false).
Proof.
  split.
  - intros Hblank. apply blank_iff in Hblank.
    unfold handleSearch. by rewrite Hblank.
  - intros Hq Hsel Hds. rewrite <- blank_iff in Hq.
    apply not_false_is_true in Hq.
    by rewrite search_nothing.
Qed.

Example handleSearch_blank_query :
  let w := Sample.search_page (lit "  ") [lit "vwl"] [lit "vwl"] in
  handleSearch Sample.baseUrl Sample.quiet_net w = (Returned tt, w).
Proof. by vm_compute. Qed.

Example handleSearch_no_docstores :
  let w := Sample.search_page (lit "inflation") [] [] in
  results (page (handleSearch Sample.baseUrl Sample.dead_net w).2) = JArr [] ∧
  calls (handleSearch Sample.baseUrl Sample.dead_net w).2 = [].
Proof. by vm_compute. Qed.

(** ** The API client: failures *)

Lemma http_error_text_truthy (n : N) :
  str_truthy (lit "HTTP error! status: " ++ decimal n) = true.
Proof. done. Qed.

Lemma http_failure_cases (fallback : str) (r : Api.response) :
  Api.surfaces fallback r (Api.http_failure fallback r).
Proof.
  unfold Api.surfaces, Api.http_failure.
  destruct (Api.response_body r) as [[| | | | |fields]|]; try done.
  simpl. destruct (field _ fields) as [d|]; [| done].
  by destruct (truthy d).
Qed.

Lemma settle_failure (fallback : str) (o : Api.fetch_outcome) :
  Api.failure_surfaced fallback o (Api.settle fallback o).
Proof.
  destruct o as [e|r]; simpl; [done |].
  intros ->. eexists; split; [done | apply http_failure_cases].
Qed.

Lemma settle_not_ok (fallback : str) (r : Api.response) :
  Api.ok r = false →
  Api.settle fallback (Api.Responded r) = Threw (Api.http_failure fallback r).
Proof. intros Hok. unfold Api.settle. by rewrite Hok. Qed.

Lemma request_run (baseUrl : str) net (endpoint : str)
    (options : Api.request_init) (w : Api.world) :
  let req := Api.HttpRequest (baseUrl ++ endpoint) (Api.init_method options)
               ((lit "Content-Type", lit "application/json")
                  :: Api.authorization (Api.api w))
               (Api.init_body options) in
  Api.request baseUrl net endpoint options w =
    (Api.settle (lit "API request failed") (net req),
     Api.World (Api.api w) (Api.sent w ++ [req])).
Proof. done. Qed.

Lemma uploadDocuments_run (baseUrl : str) net (docstoreId : str)
    (files : list Api.file) (w : Api.world) :
  let req := Api.HttpRequest
               (baseUrl ++ lit "/api/v1/docstores/" ++ docstoreId
                        ++ lit "/documents/upload")
               Api.POST (Api.authorization (Api.api w))
               (Api.FormData files) in
  Api.uploadDocuments baseUrl net docstoreId files w =
    (Api.settle (lit "Document upload failed") (net req),
     Api.World (Api.api w) (Api.sent w ++ [req])).
Proof. done. Qed.

(** C2, as amended: for every request made through [request] or
    [uploadDocuments], a rejected fetch is passed on unchanged and a
    response that is not 2xx is never returned: it is thrown, as a plain
    error that holds a message only (the truthy [detail] of a JSON body,
    else the fixed text of the call, and the status only within the text
    for a body that is not JSON). *)
Theorem client_failures (baseUrl : str) net (w : Api.world) :
  (∀ endpoint options,
     let '(res, w') := Api.request baseUrl net endpoint options w in
     ∃ req, Api.sent w' = Api.sent w ++ [req] ∧
            Api.url req = baseUrl ++ endpoint ∧
            Api.failure_surfaced (lit "API request failed") (net req) res) ∧
  (∀ docstoreId files,
     let '(res, w') := Api.uploadDocuments baseUrl net docstoreId files w in
     ∃ req, Api.sent w' = Api.sent w ++ [req] ∧
            Api.body req = Api.FormData files ∧
            Api.failure_surfaced (lit "Document upload failed")
                                 (net req) res).
Proof.
  split.
  - intros endpoint options. rewrite request_run.
    eexists; split_and!; [done | done | apply settle_failure].
  - intros docstoreId files. rewrite uploadDocuments_run.
    eexists; split_and!; [done | done | apply settle_failure].
Qed.

(** C2, as stated, fails: two responses that are not 2xx, with different
    statuses and different bodies, reach the caller as one and the same
    error, so the error carries neither the status nor the body. *)
Lemma request_forgets_status_and_body :
  let r1 := Api.Response 500 (Some (JObj [(lit "detail", JStr (lit "boom"));
                                          (lit "trace", JStr (lit "a"))])) in
  let r2 := Api.Response 404 (Some (JObj [(lit "detail", JStr (lit "boom"))])) in
  let call r := (Api.request Sample.baseUrl (λ _, Api.Responded r)
                   (lit "/api/v1/docstores/") Api.default_init
                   Sample.client).1 in
  Api.ok r1 = false ∧ Api.ok r2 = false ∧
  Api.status r1 ≠ Api.status r2 ∧
  Api.response_body r1 ≠ Api.response_body r2 ∧
  call r1 = Threw (Thrown Error (Text (lit "boom"))) ∧
  call r1 = call r2.
Proof. by vm_compute. Qed.

(** ** The auth store *)

(** C8: [logout] ends with [user = null] and [isLoading = false] in the auth
    store and with the token cleared, in the client and in [localStorage],
    whatever the network does with the logout request. *)
Theorem logout_clears_local_state (baseUrl : str) net (w : AuthStore.world) :
  let '(r, w') := AuthStore.logout baseUrl net w in
  let c := Api.api (AuthStore.net_world w') in
  r = Returned tt ∧
  AuthStore.user (AuthStore.state w') = None ∧
  AuthStore.isLoading (AuthStore.state w') = false ∧
  Api.token c = None ∧
  (Api.has_window c = true → Api.localStorage c !! lit "token" = None).
Proof.
  unfold AuthStore.logout, AuthStore.set, AuthStore.call, Api.logout, lift,
    finally, catch, bind, update.
  rewrite request_run; cbn.
  destruct (Api.settle _ _) as [j|e]; cbn;
    (split_and!; [done | done | done | done |]);
    (intros ->; apply lookup_delete_eq).
Qed.

Example logout_when_server_is_down :
  let w := AuthStore.World Sample.client
             {| AuthStore.user := Some (JObj [(lit "id", JStr (lit "u1"))]);
                AuthStore.isLoading := false; AuthStore.error := None |} in
  let w' := (AuthStore.logout Sample.baseUrl Sample.dead_net w).2 in
  AuthStore.state w' = AuthStore.initial ∧
  Api.token (Api.api (AuthStore.net_world w')) = None ∧
  Api.localStorage (Api.api (AuthStore.net_world w')) !! lit "token" = None.
Proof. by vm_compute. Qed.

(** ** Deleting a store *)

Import Orchestrator.

(** Filtering out the rows of one store leaves the rows of any other store
    as they were, in number and order. *)
Lemma filter_other_store {A} (owner : A → str) (id other : str) (l : list A) :
  other ≠ id →
  filter (λ x, owner x = other) (filter (λ x, owner x ≠ id) l)
  = filter (λ x, owner x = other) l.
Proof.
  intros Hne. rewrite list_filter_filter.
  apply list_filter_iff. intros x. naive_solver.
Qed.

Lemma deleteStore_tables (index_deleted : bool) (id : str) (s : system) :
  let s' := (deleteStore index_deleted id s).2 in
  stores s' = filter (λ st, store_id st ≠ id) (stores s) ∧
  documents s' = filter (λ d, doc_store d ≠ id) (documents s) ∧
  pipelines s' = filter (λ p, pipeline_store p ≠ id) (pipelines s).
Proof. unfold deleteStore. by destruct index_deleted. Qed.

Lemma deleteStore_no_orphans (index_deleted : bool) (id : str) (s : system) :
  no_orphans s → no_orphans (deleteStore index_deleted id s).2.
Proof.
  intros [Hd Hp].
  destruct (deleteStore_tables index_deleted id s) as (Hs' & Hd' & Hp').
  split.
  - intros d. rewrite Hd', list_elem_of_filter. intros [Hne Hin].
    destruct (Hd d Hin) as (st & Hst & Heq).
    exists st. split; [| done].
    rewrite Hs', list_elem_of_filter. split; [congruence | done].
  - intros p. rewrite Hp', list_elem_of_filter. intros [Hne Hin].
    destruct (Hp p Hin) as (st & Hst & Heq).
    exists st. split; [| done].
    rewrite Hs', list_elem_of_filter. split; [congruence | done].
Qed.

(** C7: deleting a store removes its Documents and Pipelines with it and
    leaves the rows of every other store as they were, so that no row is
    orphaned and none of another store is lost; and in the client,
    [deleteDocstore] sends the DELETE request for the id, and when the
    server answers it with a 2xx and a JSON body it returns and has removed
    from [docstores] exactly the entries with the deleted id, keeping all
    others in their order, while after any other answer it throws that
    failure and has removed nothing. *)
Theorem store_deletion_frame (index_deleted : bool) (id : str) (s : system)
    (baseUrl : str) net (w : DocstoreStore.world) :
  (let s' := (deleteStore index_deleted id s).2 in
   (∀ st, st ∈ stores s' ↔ st ∈ stores s ∧ store_id st ≠ id) ∧
   (∀ d, d ∈ documents s' ↔ d ∈ documents s ∧ doc_store d ≠ id) ∧
   (∀ p, p ∈ pipelines s' ↔ p ∈ pipelines s ∧ pipeline_store p ≠ id) ∧
   (∀ other, other ≠ id →
      filter (λ d, doc_store d = other) (documents s')
      = filter (λ d, doc_store d = other) (documents s) ∧
      filter (λ p, pipeline_store p = other) (pipelines s')
      = filter (λ p, pipeline_store p = other) (pipelines s)) ∧
   (no_orphans s → no_orphans s')) ∧
  (let before := DocstoreStore.docstores (DocstoreStore.state w) in
   let nw := DocstoreStore.net_world w in
   let req := Api.HttpRequest (baseUrl ++ lit "/api/v1/docstores/" ++ id)
                Api.DELETE
                ((lit "Content-Type", lit "application/json")
                   :: Api.authorization (Api.api nw))
                Api.NoBody in
   let '(r, w') := DocstoreStore.deleteDocstore baseUrl net id w in
   let after := DocstoreStore.docstores (DocstoreStore.state w') in
   Api.sent (DocstoreStore.net_world w') = Api.sent nw ++ [req] ∧
   match Api.settle (lit "API request failed") (net req) with
   | Returned _ =>
       r = Returned tt ∧
       after = filter (λ d, DocstoreStore.id d ≠ id) before ∧
       (∀ d, d ∈ after ↔ d ∈ before ∧ DocstoreStore.id d ≠ id)
   | Threw e => r = Threw e ∧ after = before
   end).
Proof.
  split.
  - destruct (deleteStore_tables index_deleted id s) as (Hs & Hd & Hp).
    cbv zeta. rewrite Hs, Hd, Hp. split_and!.
    + intros st. rewrite list_elem_of_filter. naive_solver.
    + intros d. rewrite list_elem_of_filter. naive_solver.
    + intros p. rewrite list_elem_of_filter. naive_solver.
    + intros other Hne. split; by apply filter_other_store.
    + apply deleteStore_no_orphans.
  - cbv zeta.
    unfold DocstoreStore.deleteDocstore, DocstoreStore.set, DocstoreStore.call,
      Api.deleteDocstore, lift, catch, bind, update, throw.
    rewrite request_run; cbn.
    destruct (Api.settle _ _) as [j|e]; cbn; [| done].
    split_and!; [done | done | done |].
    intros d. rewrite list_elem_of_filter. naive_solver.
Qed.

Example deleteStore_finance :
  let doc n st := {| doc_id := n; doc_store := st; filename := lit "report.pdf";
                     checksum := lit "c1"; doc_status := completed;
                     error_detail := None; doc_chunks := 4 |} in
  let pipe st := {| pipeline_store := st; ptype := indexing;
                    target_index := lit "docstack-" ++ st ++ lit "-1";
                    version := 1; deployed := true |} in
  let store st := {| store_id := st; slug := st;
                     index_name := lit "docstack-" ++ st ++ lit "-1" |} in
  let s := {| stores := [store (lit "finance"); store (lit "vwl")];
              documents := [doc 1 (lit "finance"); doc 2 (lit "vwl")];
              pipelines := [pipe (lit "finance"); pipe (lit "vwl")];
              indices := ∅; deletion_queue := [] |} in
  let s' := (deleteStore true (lit "finance") s).2 in
  documents s' = [doc 2 (lit "vwl")] ∧ pipelines s' = [pipe (lit "vwl")] ∧
  stores s' = [store (lit "vwl")].
Proof. by vm_compute. Qed.

(** ** Multi-store query *)

Section QueryFacts.

Context {score : Type} (leb : score → score → bool).
Context (exec_query : str → str → nat → list (hit score)).
Hypothesis leb_total : ∀ a b, leb a b = true ∨ leb b a = true.
Hypothesis leb_trans : ∀ a b c, leb a b = true → leb b c = true → leb a c = true.

Lemma insert_desc_perm (e : entry score) (l : list (entry score)) :
  insert_desc leb e l ≡ₚ e :: l.
Proof.
  induction l as [|e' rest IH]; simpl; [done |].
  destruct (leb _ _); [done |].
  rewrite IH. apply Permutation_swap.
Qed.

Lemma sort_desc_perm (l : list (entry score)) : sort_desc leb l ≡ₚ l.
Proof.
  induction l as [|e l IH]; simpl; [done |].
  by rewrite insert_desc_perm, IH.
Qed.

Lemma insert_desc_sorted (e : entry score) (l : list (entry score)) :
  StronglySorted (above leb) l → StronglySorted (above leb) (insert_desc leb e l).
Proof.
  induction 1 as [|e' rest Hrest IH Hall]; simpl.
  - repeat constructor.
  - destruct (leb (entry_score e') (entry_score e)) eqn:Hle.
    + constructor; [by constructor |].
      constructor; [done |].
      eapply Forall_impl; [exact Hall |].
      intros x Hx. unfold above in *. by eapply leb_trans.
    + constructor; [done |].
      rewrite insert_desc_perm. constructor; [| done].
      unfold above. destruct (leb_total (entry_score e) (entry_score e'));
        congruence.
Qed.

Lemma sort_desc_sorted (l : list (entry score)) :
  StronglySorted (above leb) (sort_desc leb l).
Proof.
  induction l as [|e l IH]; simpl; [constructor |].
  by apply insert_desc_sorted.
Qed.

Lemma sorted_take (n : nat) (l : list (entry score)) :
  StronglySorted (above leb) l → StronglySorted (above leb) (take n l).
Proof.
  intros H. rewrite <- (take_drop n l) in H.
  by apply StronglySorted_app_1_l in H.
Qed.

Lemma insert_desc_stable (s : score) (e : entry score)
    (l : list (entry score)) :
  filter (ties_with leb s) (insert_desc leb e l) = filter (ties_with leb s) (e :: l).
Proof.
  induction l as [|e' rest IH]; simpl; [done |].
  destruct (leb (entry_score e') (entry_score e)) eqn:Hle; [done |].
  rewrite filter_cons, IH, !filter_cons.
  destruct (decide (ties_with leb s e')) as [He'|He'];
    destruct (decide (ties_with leb s e)) as [He|He]; try done.
  exfalso. unfold ties_with, tied in *.
  apply andb_true_iff in He' as [H1 _]. apply andb_true_iff in He as [_ H2].
  rewrite (leb_trans _ _ _ H1 H2) in Hle. done.
Qed.

Lemma sort_desc_stable (s : score) (l : list (entry score)) :
  filter (ties_with leb s) (sort_desc leb l) = filter (ties_with leb s) l.
Proof.
  induction l as [|e l IH]; simpl; [done |].
  by rewrite insert_desc_stable, !filter_cons, IH.
Qed.

Lemma filter_take_prefix {A} (P : A → Prop) `{!∀ x, Decision (P x)}
    (n : nat) (l : list A) :
  filter P (take n l) `prefix_of` filter P l.
Proof.
  exists (filter P (drop n l)). by rewrite <- filter_app, take_drop.
Qed.

Lemma elem_of_fan_out (storeIds : list str) (text : str) (topK : nat)
    (e : entry score) :
  e ∈ fan_out exec_query storeIds text topK ↔
  source_store e ∈ storeIds ∧
  entry_hit e ∈ exec_query (source_store e) text topK.
Proof.
  unfold fan_out, query_store. rewrite list_elem_of_bind. split.
  - intros (storeId & He & Hs). apply list_elem_of_fmap in He as (h & -> & Hh).
    done.
  - intros [Hs Hh]. exists (source_store e). split; [| done].
    apply list_elem_of_fmap. exists (entry_hit e). by destruct e.
Qed.

Lemma fan_out_ext (exec_query' : str → str → nat → list (hit score))
    (storeIds : list str) (text : str) (topK : nat) :
  (∀ storeId, storeId ∈ storeIds →
     exec_query' storeId text topK = exec_query storeId text topK) →
  fan_out exec_query' storeIds text topK
  = fan_out exec_query storeIds text topK.
Proof.
  unfold fan_out, query_store.
  induction storeIds as [|storeId rest IH]; [done |].
  intros Hsame. simpl. rewrite Hsame by (by left).
  f_equal. apply IH. intros x Hx. apply Hsame. by right.
Qed.

End QueryFacts.

(** C3: a query over several stores answers with one list of at most
    [topK] entries, sorted by descending score, each entry carrying the
    store whose ranked list it comes from; entries whose scores tie stand in
    the order of the fan-out, that is by the position of their store among
    the ids and then by their rank in the store's list.  The answer is a
    function of the ids, the text, the limit and the stores' ranked lists. *)
Theorem query_multi_store {score : Type} (leb : score → score → bool)
    (exec_query : str → str → nat → list (hit score))
    (storeIds : list str) (text : str) (topK : nat) :
  (∀ a b, leb a b = true ∨ leb b a = true) →
  (∀ a b c, leb a b = true → leb b c = true → leb a c = true) →
  1 < length storeIds →
  let result := query leb exec_query storeIds text topK in
  length result ≤ topK ∧
  StronglySorted (above leb) result ∧
  (∀ e, e ∈ result →
     source_store e ∈ storeIds ∧
     entry_hit e ∈ exec_query (source_store e) text topK) ∧
  (∀ s, filter (ties_with leb s) result
        `prefix_of` filter (ties_with leb s)
                           (fan_out exec_query storeIds text topK)) ∧
  (∀ exec_query',
     (∀ storeId, storeId ∈ storeIds →
        exec_query' storeId text topK = exec_query storeId text topK) →
     query leb exec_query' storeIds text topK = result).
Proof.
  intros Htotal Htrans Hlen result.
  assert (result = take topK (sort_desc leb
                                (fan_out exec_query storeIds text topK)))
    as ->.
  { subst result. unfold query.
    destruct storeIds as [|a [|b rest]]; simpl in Hlen; [lia | lia | done]. }
  split_and!.
  - rewrite length_take. lia.
  - apply sorted_take, sort_desc_sorted; done.
  - intros e He. apply (elem_of_fan_out exec_query).
    rewrite <- (sort_desc_perm leb), <- (take_drop topK (sort_desc _ _)).
    apply elem_of_app. by left.
  - intros s.
    rewrite <- (sort_desc_stable leb Htrans s
                  (fan_out exec_query storeIds text topK)).
    apply filter_take_prefix.
  - intros exec_query' Hsame. unfold query.
    destruct storeIds as [|a [|b rest]]; simpl in Hlen; [lia | lia |].
    by rewrite (fan_out_ext exec_query exec_query').
Qed.

Lemma query_multi_store_witness :
  query Z.leb Sample.ranked [lit "vwl"; lit "finance"] (lit "rates") 3
  = [Entry (lit "vwl") (Hit (lit "v1") (lit "supply") 90%Z);
     Entry (lit "finance") (Hit (lit "f1") (lit "bonds") 90%Z);
     Entry (lit "finance") (Hit (lit "f2") (lit "equity") 80%Z)] ∧
  StronglySorted (above Z.leb)
    (query Z.leb Sample.ranked [lit "vwl"; lit "finance"] (lit "rates") 3).
Proof.
  split; [by vm_compute |].
  apply (query_multi_store Z.leb Sample.ranked [lit "vwl"; lit "finance"]
           (lit "rates") 3).
  - intros a b. rewrite !Z.leb_le. lia.
  - intros a b c. rewrite !Z.leb_le. lia.
  - simpl. lia.
Defined.

(** ** Upload and duplicate detection *)

Section UploadFacts.

Context (content_checksum : list N → str).
Context (submitForIndexing : str → Api.file → option str).

Lemma fresh_doc_id_above (docs : list Document) (d : Document) :
  d ∈ docs → doc_id d < fresh_doc_id docs.
Proof.
  unfold fresh_doc_id.
  induction 1 as [d docs|d d' docs Hin IH]; rewrite fmap_cons; simpl; lia.
Qed.

Lemma complete_untouched (id chunks : nat) (final : status)
    (err : option str) (docs : list Document) :
  (∀ d, d ∈ docs → doc_id d ≠ id) →
  complete id chunks final err docs = docs.
Proof.
  intros Hne. unfold complete.
  induction docs as [|d docs IH]; simpl; [done |].
  rewrite decide_False.
  - f_equal. apply IH. intros x Hx. apply Hne. by right.
  - intros [Hid _]. eapply Hne; [by left | done].
Qed.

Lemma no_live_copy_filter (storeId c : str) (docs : list Document) :
  ¬ Exists (live_copy storeId c) docs → live_copies storeId c docs = [].
Proof.
  intros Hno. unfold live_copies.
  induction docs as [|d docs IH]; [done |].
  rewrite filter_cons, decide_False.
  - apply IH. intros H. apply Hno. by right.
  - intros H. apply Hno. by left.
Qed.

Lemma upload_file_duplicate (storeId : str) (f : Api.file)
    (docs : list Document) :
  Exists (live_copy storeId (content_checksum (Api.file_bytes f))) docs →
  upload_file content_checksum submitForIndexing storeId f docs = (duplicate, docs).
Proof. intros H. unfold Orchestrator.upload_file. by rewrite decide_True. Qed.

Lemma upload_file_accepted (storeId : str) (f : Api.file)
    (docs : list Document) :
  ¬ Exists (live_copy storeId (content_checksum (Api.file_bytes f))) docs →
  submitForIndexing storeId f = None →
  upload_file content_checksum submitForIndexing storeId f docs =
    (indexed,
     docs ++ [{| doc_id := fresh_doc_id docs; doc_store := storeId;
                 filename := Api.file_name f;
                 checksum := content_checksum (Api.file_bytes f);
                 doc_status := processing; error_detail := None;
                 doc_chunks := 0 |}]).
Proof.
  intros Hno Hsub. unfold Orchestrator.upload_file.
  by rewrite decide_False, Hsub.
Qed.

Lemma upload_file_rejected (storeId : str) (f : Api.file)
    (docs : list Document) (err : str) :
  ¬ Exists (live_copy storeId (content_checksum (Api.file_bytes f))) docs →
  submitForIndexing storeId f = Some err →
  upload_file content_checksum submitForIndexing storeId f docs =
    (upload_failed,
     docs ++ [{| doc_id := fresh_doc_id docs; doc_store := storeId;
                 filename := Api.file_name f;
                 checksum := content_checksum (Api.file_bytes f);
                 doc_status := failed; error_detail := Some err;
                 doc_chunks := 0 |}]).
Proof.
  intros Hno Hsub. unfold Orchestrator.upload_file.
  by rewrite decide_False, Hsub.
Qed.

Lemma live_copies_snoc (storeId c : str) (docs : list Document)
    (d : Document) :
  ¬ Exists (live_copy storeId c) docs →
  live_copies storeId c (docs ++ [d])
  = if decide (live_copy storeId c d) then [d] else [].
Proof.
  intros Hno. unfold live_copies. rewrite filter_app.
  fold (live_copies storeId c docs). rewrite no_live_copy_filter by done.
  rewrite filter_cons, filter_nil. by destruct (decide _).
Qed.

End UploadFacts.

(** C4: a file whose checksum equals that of a document of the same store
    that is not [failed] gets no second row and the outcome [duplicate];
    so the same content uploaded twice to a store that did not hold it,
    the first submission accepted, leaves exactly one row for it, first
    [processing] and later [completed], with the outcomes [indexed] and
    [duplicate]; and whatever the runtime answers, two uploads never leave
    two rows that count as indexed. *)
Theorem upload_same_content_twice (content_checksum : list N → str)
    (submitForIndexing : str → Api.file → option str)
    (storeId : str) (f : Api.file) (docs : list Document) :
  let c := content_checksum (Api.file_bytes f) in
  let upload := uploadDocuments content_checksum submitForIndexing storeId in
  (Exists (live_copy storeId c) docs → upload [f] docs = ([duplicate], docs)) ∧
  (¬ Exists (live_copy storeId c) docs →
   submitForIndexing storeId f = None →
     let '(o1, docs1) := upload [f] docs in
     let '(o2, docs2) := upload [f] docs1 in
     o1 = [indexed] ∧ o2 = [duplicate] ∧ docs2 = docs1 ∧
     ∃ d, live_copies storeId c docs2 = [d] ∧ doc_status d = processing ∧
          ∀ chunks,
            let docs3 := complete (doc_id d) chunks completed None docs1 in
            upload [f] docs3 = ([duplicate], docs3) ∧
            ∃ d', live_copies storeId c docs3 = [d'] ∧
                  doc_status d' = completed) ∧
  (¬ Exists (live_copy storeId c) docs →
     length (live_copies storeId c (upload [f; f] docs).2) ≤ 1).
Proof.
  intros c upload. subst upload c. split_and!.
  - intros Hdup. simpl. by rewrite upload_file_duplicate.
  - intros Hno Hsub. simpl.
    rewrite (upload_file_accepted _ _ _ _ _ Hno Hsub).
    set (row := {| doc_id := fresh_doc_id docs; doc_store := storeId;
                   filename := Api.file_name f;
                   checksum := content_checksum (Api.file_bytes f);
                   doc_status := processing; error_detail := None;
                   doc_chunks := 0 |}).
    assert (live_copy storeId (content_checksum (Api.file_bytes f)) row)
      as Hrow by done.
    rewrite upload_file_duplicate
      by (apply Exists_app; right; by constructor).
    split_and!; [done | done | done |].
    exists row. split_and!.
    + rewrite live_copies_snoc by done. by rewrite decide_True.
    + done.
    + intros chunks.
      unfold complete. rewrite fmap_app. fold (complete (doc_id row) chunks
        completed None docs).
      rewrite complete_untouched; cycle 1.
      { intros d Hd. apply fresh_doc_id_above in Hd. simpl. lia. }
      simpl. rewrite decide_True by done.
      set (row' := {| doc_id := fresh_doc_id docs; doc_store := storeId;
                      filename := Api.file_name f;
                   checksum := content_checksum (Api.file_bytes f);
                      doc_status := completed; error_detail := None;
                      doc_chunks := chunks |}).
      assert (live_copy storeId (content_checksum (Api.file_bytes f)) row')
        as Hrow' by done.
      split.
      * rewrite upload_file_duplicate; [done |].
        apply Exists_app; right; by constructor.
      * exists row'. rewrite live_copies_snoc by done.
        by rewrite decide_True.
  - intros Hno. simpl.
    destruct (submitForIndexing storeId f) as [err|] eqn:Hsub.
    + rewrite (upload_file_rejected _ _ _ _ _ _ Hno Hsub). simpl.
      set (row := {| doc_id := fresh_doc_id docs; doc_store := storeId;
                     filename := Api.file_name f;
                   checksum := content_checksum (Api.file_bytes f);
                     doc_status := failed; error_detail := Some err;
                     doc_chunks := 0 |}).
      assert (¬ live_copy storeId (content_checksum (Api.file_bytes f)) row)
        as Hrow by (intros (_ & _ & ?); done).
      assert (¬ Exists (live_copy storeId
                          (content_checksum (Api.file_bytes f)))
                (docs ++ [row])) as Hno'.
      { rewrite Exists_app, Exists_cons, Exists_nil. tauto. }
      rewrite (upload_file_rejected _ _ _ _ _ _ Hno' Hsub). simpl.
      rewrite live_copies_snoc by done.
      rewrite decide_False; [simpl; lia |].
      intros (_ & _ & ?); done.
    + rewrite (upload_file_accepted _ _ _ _ _ Hno Hsub). simpl.
      rewrite upload_file_duplicate; simpl.
      * rewrite live_copies_snoc by done. destruct (decide _); simpl; lia.
      * apply Exists_app; right; by constructor.
Qed.

Example upload_report_twice :
  let f := Api.File (lit "report.pdf") [37; 80; 68; 70]%N in
  uploadDocuments (λ bytes, decimal (N.of_nat (length bytes))) (λ _ _, None)
                  (lit "finance") [f; f] []
  = ([indexed; duplicate],
     [{| doc_id := 1; doc_store := lit "finance";
         filename := lit "report.pdf"; checksum := lit "4";
         doc_status := processing; error_detail := None;
         doc_chunks := 0 |}]).
Proof. by vm_compute. Qed.

(** ** Reindex *)














Section ReindexFacts.

Context (env : environment) (id : str) (s0 : system) (st0 : Store).
Hypothesis store_found : find_store id s0 = Some st0.
Hypothesis index_queryable : queryable (index_name st0) (indices s0) = true.
Hypothesis fresh_name :
  indices s0 !! make_index_name (slug st0) (now env) = None.




End ReindexFacts.






Example reindex_finance :
  let '(pc, s) := reindex Sample.fair_weather (lit "s-1") Sample.system in
  pc = Finished ∧
  current_index (lit "s-1") s = Some (lit "docstack-finance-1735574400") ∧
  query_result (lit "s-1") s = Some [lit "report.pdf"] ∧
  deletion_queue s = [lit "docstack-finance-1735488000"].
Proof. by vm_compute. Qed.

(** A reindex that aborts because the new index does not answer leaves the
    Store row and the old index as they were, and the queries on the new
    index. *)
Example reindex_aborts_before_cutover :
  let '(pc, s) := reindex Sample.index_not_ready (lit "s-1") Sample.system in
  pc = Aborted ∧
  current_index (lit "s-1") s = Some (lit "docstack-finance-1735488000") ∧
  search (lit "docstack-finance-1735488000") (indices s)
  = Some [lit "report.pdf"] ∧
  served_by (lit "s-1") s = Some (lit "docstack-finance-1735574400") ∧
  query_result (lit "s-1") s = None ∧
  deletion_queue s = [].
Proof. by vm_compute. Qed.

(** Without a fresh timestamp the new name is the old one, and the
    deletion scheduled for the old index removes the index in use. *)
Example reindex_with_stale_clock :
  let '(pc, s) := reindex Sample.stale_clock (lit "s-1") Sample.system in
  pc = Finished ∧
  current_index (lit "s-1") s = current_index (lit "s-1") Sample.system ∧
  query_result (lit "s-1") (run_deletions s) = None.
Proof. by vm_compute. Qed.

(** ** Rendering pipeline definitions *)

Import TemplateEngine.

Lemma lit_inj (a b : string) : lit a = lit b → a = b.
Proof.
  unfold lit. revert b.
  induction a as [|c a IH]; intros [|d b]; simpl; try done.
  intros [= Hc Hab].
  f_equal; [| by apply IH].
  rewrite <- (ascii_N_embedding c), <- (ascii_N_embedding d). by rewrite Hc.
Qed.

Lemma decimal_inj (n n' : N) : decimal n = decimal n' → n = n'.
Proof.
  unfold decimal. intros H. apply lit_inj in H.
  assert (∀ m, N.to_uint m ≠ Decimal.Nil) as Hnil.
  { intros [|p]; [done |]. apply DecimalPos.Unsigned.to_uint_nonnil. }
  apply DecimalN.Unsigned.to_uint_inj.
  pose proof (NilZero.usu _ (Hnil n)) as H1.
  pose proof (NilZero.usu _ (Hnil n')) as H2.
  rewrite H in H1. congruence.
Qed.

Section RenderFacts.

Context (p : storeParams) (n n' : N).
Hypothesis length_given : p_chunk_length p = Some n.

Lemma value_other (x : parameter) :
  x ≠ chunk_length → value (with_chunk_length n' p) x = value p x.
Proof. by destruct x. Qed.

Lemma piece_other (sg : segment) :
  sg ≠ Placeholder chunk_length →
  piece (with_chunk_length n' p) sg = piece p sg.
Proof.
  destruct sg as [text|x]; [done |]. intros Hne. simpl.
  rewrite value_other; [done | congruence].
Qed.

Lemma piece_chunk_length :
  piece p (Placeholder chunk_length) = decimal n ∧
  piece (with_chunk_length n' p) (Placeholder chunk_length) = decimal n'.
Proof. simpl. by rewrite length_given. Qed.

Lemma validate_with_chunk_length :
  validate (with_chunk_length n' p) = validate p.
Proof.
  unfold validate.
  assert (filter (λ x, value (with_chunk_length n' p) x = None) all_parameters
          = filter (λ x, value p x = None) all_parameters) as ->; [| done].
  apply list_filter_iff. intros x.
  destruct (decide (x = chunk_length)) as [->|Hne].
  - simpl. rewrite length_given. done.
  - by rewrite value_other.
Qed.

Lemma pieces_unused (t : list segment) :
  ¬ uses chunk_length t → pieces (with_chunk_length n' p) t = pieces p t.
Proof.
  unfold uses, pieces. induction t as [|sg t IH]; [done |].
  intros Hno. apply not_elem_of_cons in Hno as [Hne Hno].
  rewrite !fmap_cons. f_equal; [by apply piece_other | by apply IH].
Qed.

(** Each place where the chunk length is rendered adds the length of its
    decimal text, and nothing else depends on it. *)
Lemma render_lengths (t : list segment) :
  length (concat (pieces p t))
    + occurrences chunk_length t * length (decimal n')
  = length (concat (pieces (with_chunk_length n' p) t))
    + occurrences chunk_length t * length (decimal n).
Proof.
  unfold pieces, occurrences. induction t as [|sg t IH]; [done |].
  rewrite !fmap_cons, filter_cons. simpl concat. rewrite !length_app.
  destruct (decide (sg = Placeholder chunk_length)) as [->|Hne].
  - destruct piece_chunk_length as [-> ->]. simpl length. lia.
  - rewrite (piece_other sg Hne). lia.
Qed.

Lemma occurrences_pos (t : list segment) :
  uses chunk_length t → 0 < occurrences chunk_length t.
Proof.
  unfold uses, occurrences. intros Hin.
  assert (Placeholder chunk_length
            ∈ filter (λ sg, sg = Placeholder chunk_length) t) as H.
  { by apply list_elem_of_filter. }
  destruct (filter _ t); [by apply elem_of_nil in H | simpl; lia].
Qed.

(** A template that renders the chunk length gives different texts for
    different chunk lengths. *)
Lemma render_sensitive (t : list segment) :
  n ≠ n' → uses chunk_length t →
  concat (pieces p t) ≠ concat (pieces (with_chunk_length n' p) t).
Proof.
  intros Hnn Huses Heq.
  assert (length (decimal n) = length (decimal n')) as Hlen.
  { pose proof (render_lengths t) as Hl. rewrite Heq in Hl.
    pose proof (occurrences_pos t Huses). nia. }
  apply list_elem_of_split_l in Huses as (t1 & t2 & -> & Hfirst).
  unfold pieces in Heq. rewrite !fmap_app, !fmap_cons, !concat_app in Heq.
  fold (pieces p t1) (pieces (with_chunk_length n' p) t1) in Heq.
  rewrite (pieces_unused t1 Hfirst) in Heq.
  apply app_inv_head in Heq. rewrite !concat_cons in Heq.
  destruct piece_chunk_length as [Hp Hp']. rewrite Hp, Hp' in Heq.
  apply app_inj_1 in Heq as [Heq _]; [| done].
  by apply decimal_inj in Heq.
Qed.

End RenderFacts.

(** What [render] gives depends on the parameters only through the outcome
    of the validation and the values the template renders. *)
Lemma pieces_agree (p1 p2 : storeParams) (t : list segment) :
  (∀ x, uses x t → value p1 x = value p2 x) → pieces p1 t = pieces p2 t.
Proof.
  intros Hagree. unfold pieces. apply list_fmap_ext.
  intros i [text|x] Hsg; simpl; [done |].
  rewrite Hagree; [done |]. unfold uses. by eapply list_elem_of_lookup_2.
Qed.

Lemma with_chunk_length_back (p : storeParams) (n n' : N) :
  p_chunk_length p = Some n →
  with_chunk_length n (with_chunk_length n' p) = p.
Proof. destruct p. simpl. by intros ->. Qed.

(** C6: [render] is a function of the template kind and the parameter set
    that reads the parameters only through their validation and the values
    the template of the kind renders, so that identical inputs, and even
    inputs that agree on these, give the same text or the same validation
    error.  Changing only the chunk length does not change whether the
    parameters are valid; and where the template of the kind renders the
    chunk length, as [indexing.yaml.j2] does for its splitter, it changes
    the text of valid parameters, and nothing else: the text is the same
    piece by piece except for the places of the chunk length, which hold
    the old and the new length, and changing the length back gives the
    first text again. *)
Theorem render_chunk_length (template : templateKind → list segment)
    (k : templateKind) :
  (∀ p1 p2,
     validate p1 = validate p2 →
     (∀ x, uses x (template k) → value p1 x = value p2 x) →
     render template k p1 = render template k p2) ∧
  (∀ p n n',
     p_chunk_length p = Some n →
     validate (with_chunk_length n' p) = validate p) ∧
  (uses chunk_length (template k) →
   ∀ p n n',
     validate p = None → p_chunk_length p = Some n → n ≠ n' →
     ∃ text text',
       render template k p = inr text ∧
       render template k (with_chunk_length n' p) = inr text' ∧
       text ≠ text' ∧
       (∀ i sg, template k !! i = Some sg →
                pieces p (template k) !! i
                = Some (if decide (sg = Placeholder chunk_length)
                        then decimal n else piece p sg) ∧
                pieces (with_chunk_length n' p) (template k) !! i
                = Some (if decide (sg = Placeholder chunk_length)
                        then decimal n' else piece p sg)) ∧
       render template k (with_chunk_length n (with_chunk_length n' p))
       = inr text).
Proof.
  split_and!.
  - intros p1 p2 Hvalid Hagree. unfold render. rewrite Hvalid.
    destruct (validate p2); [done |]. by rewrite (pieces_agree p1 p2).
  - intros p n n' Hlen. by apply validate_with_chunk_length with n.
  - intros Huses p n n' Hvalid Hlen Hne.
    exists (concat (pieces p (template k))),
           (concat (pieces (with_chunk_length n' p) (template k))).
    unfold render.
    rewrite (with_chunk_length_back p n n' Hlen).
    rewrite (validate_with_chunk_length p n n' Hlen), Hvalid.
    split_and!; [done | done | | | done].
    + by apply (render_sensitive p n n' Hlen).
    + intros i sg Hi. unfold pieces. rewrite !list_lookup_fmap, Hi. simpl.
      destruct (decide (sg = Placeholder chunk_length)) as [->|Hsg].
      * by destruct (piece_chunk_length p n n' Hlen) as [-> ->].
      * by rewrite (piece_other p n' sg Hsg).
Qed.

Lemma render_chunk_length_witness :
  ∃ text text',
    render (λ _, indexing_template) indexing Sample.params = inr text ∧
    render (λ _, indexing_template) indexing
      (with_chunk_length 60 Sample.params) = inr text' ∧
    text ≠ text'.
Proof.
  destruct (proj2 (proj2 (render_chunk_length (λ _, indexing_template)
                            indexing))
              ltac:(unfold uses; simpl; set_solver)
              Sample.params 55%N 60%N eq_refl eq_refl)
    as (text & text' & H1 & H2 & H3 & _); [done |].
  by exists text, text'.
Defined.

Example render_indexing_twice :
  render (λ _, indexing_template) indexing Sample.params
  = inr (lit ("components:\n  splitter:\n    split_by: sentence"
              ++ "\n    split_length: 55\n    split_overlap: 5"
              ++ "\n  embedder:\n    model: BAAI/bge-large-en-v1.5"
              ++ "\n    normalize_embeddings: true\n    batch_size: 32"
              ++ "\n  writer:\n    index: docstack-vwl-1735488000"
              ++ "\n    embedding_dim: 768\n"))
  ∧ render (λ _, indexing_template) indexing
      (with_chunk_length 60 Sample.params)
    ≠ render (λ _, indexing_template) indexing Sample.params.
Proof. split; by vm_compute. Qed.

(** ** The theorems at sample inputs *)

Lemma toggleDocstore_twice_witness :
  let w := Sample.search_page (lit "inflation") [lit "vwl"; lit "finance"]
                              [lit "vwl"; lit "finance"] in
  SearchPage.selection_after (lit "vwl") w = [lit "finance"] ∧
  lit "vwl" ∉ SearchPage.selection_after (lit "vwl") w.
Proof.
  intros w.
  destruct (toggleDocstore_twice (lit "vwl") w) as (Hpresent & _ & _).
  destruct Hpresent as [Hsel Hgone]; [by left |].
  split; [| done]. rewrite Hsel. by vm_compute.
Defined.

Lemma handleSearch_guards_witness :
  let w := Sample.search_page (lit "  ") [lit "vwl"] [lit "vwl"] in
  SearchPage.handleSearch Sample.baseUrl Sample.quiet_net w = (Returned tt, w).
Proof.
  intros w.
  apply (proj1 (handleSearch_guards Sample.baseUrl Sample.quiet_net w)).
  by repeat constructor.
Defined.

Lemma client_failures_witness :
  let net := λ _, Api.Responded (Api.Response 503 None) in
  (Api.request Sample.baseUrl net (lit "/api/v1/docstores/")
               Api.default_init Sample.client).1
  = Threw (Thrown Error (Text (lit "HTTP error! status: 503"))).
Proof.
  intros net.
  pose proof (proj1 (client_failures Sample.baseUrl net Sample.client)
                (lit "/api/v1/docstores/") Api.default_init) as H.
  destruct (Api.request _ _ _ _ _) as [res w'].
  destruct H as (req & _ & _ & H).
  destruct (H eq_refl) as (e & -> & ->). done.
Defined.

Lemma store_deletion_frame_witness :
  let s' := (deleteStore true (lit "finance") Sample.two_stores).2 in
  let w' := (DocstoreStore.deleteDocstore Sample.baseUrl Sample.quiet_net
               (lit "finance") Sample.two_docstores).2 in
  no_orphans s' ∧
  filter (λ d, doc_store d = lit "vwl") (documents s')
  = [Sample.row 2 (lit "vwl")] ∧
  DocstoreStore.docstores (DocstoreStore.state w')
  = [Sample.docstore (lit "vwl")] ∧
  length (Api.sent (DocstoreStore.net_world w')) = 1.
Proof.
  intros s' w'. subst s' w'.
  pose proof (store_deletion_frame true (lit "finance") Sample.two_stores
                Sample.baseUrl Sample.quiet_net Sample.two_docstores) as H.
  cbv zeta in H.
  destruct (DocstoreStore.deleteDocstore _ _ _ _) as [r w'].
  destruct H as [(_ & _ & _ & Hother & Horphans) (Hsent & _ & Hafter & _)].
  cbn [snd]. split_and!.
  - apply Horphans. split.
    + intros d Hd. exists (Build_Store (doc_store d) (doc_store d)
                             (lit "docstack-" ++ doc_store d ++ lit "-1")).
      split; [| done].
      apply elem_of_cons in Hd as [->|Hd]; [by left |].
      apply list_elem_of_singleton in Hd as ->. by right; left.
    + intros q Hq. exists (Build_Store (pipeline_store q) (pipeline_store q)
                             (lit "docstack-" ++ pipeline_store q ++ lit "-1")).
      split; [| done].
      apply elem_of_cons in Hq as [->|Hq]; [by left |].
      apply list_elem_of_singleton in Hq as ->. by right; left.
  - destruct (Hother (lit "vwl")) as [-> _]; by vm_compute.
  - rewrite Hafter. by vm_compute.
  - rewrite Hsent. by rewrite length_app.
Defined.

Lemma upload_same_content_twice_witness :
  let f := Api.File (lit "report.pdf") [37; 80; 68; 70]%N in
  let sum := λ bytes : list N, decimal (N.of_nat (length bytes)) in
  length (live_copies (lit "finance") (sum (Api.file_bytes f))
            (uploadDocuments sum (λ _ _, None) (lit "finance") [f; f] []).2)
  ≤ 1.
Proof.
  intros f sum.
  destruct (upload_same_content_twice sum (λ _ _, None) (lit "finance") f [])
    as (_ & _ & H).
  apply H. by intros H0%Exists_nil.
Defined.

Lemma logout_clears_local_state_witness :
  let w := AuthStore.World Sample.client AuthStore.initial in
  let w' := (AuthStore.logout Sample.baseUrl Sample.dead_net w).2 in
  Api.localStorage (Api.api (AuthStore.net_world w')) !! lit "token" = None.
Proof.
  intros w w'. subst w'.
  pose proof (logout_clears_local_state Sample.baseUrl Sample.dead_net w) as H.
  destruct (AuthStore.logout Sample.baseUrl Sample.dead_net w)
    as [r w'] eqn:Hrun.
  destruct H as (_ & _ & _ & _ & H). simpl. apply H.
  apply (f_equal snd) in Hrun. simpl in Hrun. rewrite <- Hrun.
  by vm_compute.
Defined.

(** * Further properties of the client *)

(** ** The token of the API client *)

(** X1: in a browser, reloading the page after [setToken] or [clearToken]
    gives back the same client: the token goes through [localStorage] and
    comes back unchanged, and a cleared token stays cleared. *)
Theorem client_reload (c : Api.client) (t : str) :
  Api.has_window c = true →
  Session.construct true (Api.localStorage (Api.setToken t c))
  = Api.setToken t c ∧
  Session.construct true (Api.localStorage (Api.clearToken c))
  = Api.clearToken c.
Proof.
  intros Hw. unfold Session.construct, Api.setToken, Api.clearToken.
  rewrite Hw; simpl.
  by rewrite lookup_insert_eq, lookup_delete_eq.
Qed.

Lemma client_reload_witness :
  Session.construct true
    (Api.localStorage (Api.setToken (lit "abc") (Api.api Sample.client)))
  = Api.setToken (lit "abc") (Api.api Sample.client).
Proof.
  apply (client_reload (Api.api Sample.client) (lit "abc")). reflexivity.
Defined.

(** X2: [clearToken] undoes [setToken] whatever the token was, and neither
    touches an entry of [localStorage] other than ["token"]. *)
Theorem token_frame (c : Api.client) (t : str) :
  Api.clearToken (Api.setToken t c) = Api.clearToken c ∧
  (∀ k, k ≠ lit "token" →
     Api.localStorage (Api.setToken t c) !! k = Api.localStorage c !! k ∧
     Api.localStorage (Api.clearToken c) !! k = Api.localStorage c !! k).
Proof.
  unfold Api.setToken, Api.clearToken. split.
  - simpl. destruct (Api.has_window c); [| done].
    by rewrite delete_insert_eq.
  - intros k Hk. simpl. destruct (Api.has_window c); [| done].
    by rewrite lookup_insert_ne, lookup_delete_ne.
Qed.

Lemma session_request_run (baseUrl : str) server (endpoint : str)
    (options : Api.request_init) (w : Api.world) :
  let req := Api.HttpRequest (baseUrl ++ endpoint) (Api.init_method options)
               (Session.json_headers (Api.api w)) (Api.init_body options) in
  Session.request baseUrl server endpoint options w =
    (Api.settle (lit "API request failed") (server (Api.sent w) req),
     Api.World (Api.api w) (Api.sent w ++ [req])).
Proof. done. Qed.

(** X3: [logout] sends one request, the POST to the logout endpoint, still
    with the headers of the token that is being given up; whatever the
    answer, the request after it carries the Content-Type header and no
    Authorization header. *)
Theorem logout_then_request (baseUrl : str) server (w : Api.world)
    (endpoint : str) (options : Api.request_init) :
  let w1 := (Session.logout baseUrl server w).2 in
  let w2 := (Session.request baseUrl server endpoint options w1).2 in
  Api.sent w1
  = Api.sent w
      ++ [Api.HttpRequest (baseUrl ++ lit "/api/v1/auth/logout") Api.POST
            (Session.json_headers (Api.api w)) Api.NoBody] ∧
  ∃ req, Api.sent w2 = Api.sent w1 ++ [req] ∧
         Api.url req = baseUrl ++ endpoint ∧
         Api.headers req = [(lit "Content-Type", lit "application/json")].
Proof.
  cbv zeta. unfold Session.logout, finally.
  rewrite (session_request_run baseUrl server (lit "/api/v1/auth/logout")).
  simpl. split; [done |]. eexists. split_and!; done.
Qed.

(** X4: the request of [uploadDocuments] never carries a Content-Type
    header, so that the browser can set the multipart boundary, and carries
    the Authorization header exactly when the client holds a token that is
    not empty, then with [Bearer] and that token. *)
Theorem upload_headers (baseUrl : str) server (docstoreId : str)
    (files : list Api.file) (w : Api.world) :
  let w' := (Session.uploadDocuments baseUrl server docstoreId files w).2 in
  ∃ req, Api.sent w' = Api.sent w ++ [req] ∧
         Api.method req = Api.POST ∧
         (∀ v, (lit "Content-Type", v) ∉ Api.headers req) ∧
         (∀ v, (lit "Authorization", v) ∈ Api.headers req ↔
               ∃ t, Api.token (Api.api w) = Some t ∧ t ≠ [] ∧
                    v = lit "Bearer " ++ t).
Proof.
  cbv zeta. unfold Session.uploadDocuments. rewrite uploadDocuments_run. simpl.
  eexists. split_and!; [done | done | |]; simpl; unfold Api.authorization.
  - intros v. destruct (Api.token (Api.api w)) as [[|c t]|]; simpl.
    + apply not_elem_of_nil.
    + rewrite list_elem_of_singleton. intros Heq.
      apply (f_equal fst) in Heq. by vm_compute in Heq.
    + apply not_elem_of_nil.
  - intros v. destruct (Api.token (Api.api w)) as [[|c t]|]; simpl.
    + split; [by intros ?%elem_of_nil | by intros (t & [= <-] & ? & _)].
    + rewrite list_elem_of_singleton. split.
      * intros [= ->]. by exists (c :: t).
      * by intros (t' & [= <-] & _ & ->).
    + split; [by intros ?%elem_of_nil | by intros (t & [=] & _)].
Qed.

(** ** Login, registration and verification *)

(** The request [login] sends from the client [c]. *)
Lemma session_login_run (baseUrl : str) server as_string
    (email password : str) (w : Api.world) :
  let req := Api.HttpRequest (baseUrl ++ lit "/api/v1/auth/login") Api.POST
               (Session.json_headers (Api.api w))
               (Api.JsonBody (Session.credentials email password)) in
  let sent' := Api.sent w ++ [req] in
  Session.login baseUrl server as_string email password w =
    match Api.settle (lit "API request failed") (server (Api.sent w) req) with
    | Returned response =>
        match get response (lit "access_token") with
        | inl e => (Threw e, Api.World (Api.api w) sent')
        | inr token =>
            (Returned response,
             Api.World (Api.setToken (as_string token) (Api.api w)) sent')
        end
    | Threw e => (Threw e, Api.World (Api.api w) sent')
    end.
Proof.
  cbv zeta. unfold Session.login, bind. rewrite session_request_run.
  destruct (Api.settle _ _) as [response|e]; [| done].
  by destruct (get response _) as [e|token].
Qed.

(** X5: a login that the server answers with a 2xx JSON object holding a
    string [access_token] keeps that string as the token, in the client and,
    in a browser, in [localStorage]; the next request then carries it as
    [Authorization: Bearer <token>] when it is not empty. *)
Theorem login_stores_token (baseUrl : str) server as_string
    (email password : str) (w : Api.world) (r : Api.response)
    (fields : list (str * json)) (t : str)
    (endpoint : str) (options : Api.request_init) :
  let req := Api.HttpRequest (baseUrl ++ lit "/api/v1/auth/login") Api.POST
               (Session.json_headers (Api.api w))
               (Api.JsonBody (Session.credentials email password)) in
  server (Api.sent w) req = Api.Responded r →
  Api.ok r = true →
  Api.response_body r = Some (JObj fields) →
  field (lit "access_token") fields = Some (JStr t) →
  as_string (Some (JStr t)) = t →
  t ≠ [] →
  let '(res, w1) := Session.login baseUrl server as_string email password w in
  let w2 := (Session.request baseUrl server endpoint options w1).2 in
  res = Returned (JObj fields) ∧
  Api.token (Api.api w1) = Some t ∧
  (Api.has_window (Api.api w) = true →
     Api.localStorage (Api.api w1) !! lit "token" = Some t) ∧
  ∃ req', Api.sent w2 = Api.sent w ++ [req; req'] ∧
          Api.url req' = baseUrl ++ endpoint ∧
          Api.headers req'
          = [(lit "Content-Type", lit "application/json");
             (lit "Authorization", lit "Bearer " ++ t)].
Proof.
  intros req Hanswer Hok Hbody Hfield Hread Ht.
  rewrite session_login_run. fold req. rewrite Hanswer.
  unfold Api.settle. rewrite Hok, Hbody. cbn [get]. rewrite Hfield, Hread.
  rewrite session_request_run.
  split_and!; [done | done | |].
  - intros Hw. unfold Api.setToken. simpl. rewrite Hw.
    apply lookup_insert_eq.
  - eexists. split_and!; [simpl; by rewrite <- app_assoc | done |].
    simpl. unfold Session.json_headers, Api.authorization. simpl.
    by destruct t.
Qed.

(** X6: a login whose request fails, by a rejected fetch or by an answer
    that is not 2xx, throws and leaves the client as it was: the token held
    before and the entries of [localStorage] stay. *)
Theorem login_failure_keeps_token (baseUrl : str) server as_string
    (email password : str) (w : Api.world) (e : thrown) :
  let req := Api.HttpRequest (baseUrl ++ lit "/api/v1/auth/login") Api.POST
               (Session.json_headers (Api.api w))
               (Api.JsonBody (Session.credentials email password)) in
  Api.settle (lit "API request failed") (server (Api.sent w) req) = Threw e →
  Session.login baseUrl server as_string email password w
  = (Threw e, Api.World (Api.api w) (Api.sent w ++ [req])).
Proof.
  intros req Hfail. rewrite session_login_run. fold req. by rewrite Hfail.
Qed.

Lemma login_answer_not_null (baseUrl : str) server as_string
    (email password : str) (w w' : Api.world) (response : json) :
  Session.login baseUrl server as_string email password w
  = (Returned response, w') →
  ∃ u, get response (lit "user") = inr u.
Proof.
  rewrite session_login_run. cbv zeta.
  destruct (Api.settle _ _) as [j|e]; [| done].
  destruct (get j (lit "access_token")) as [e|token] eqn:Hget; [done |].
  intros [= <- _]. destruct j; simpl in *; try done; eauto.
Qed.

(** X7: the [login] action ends with [isLoading = false] and with the client
    as [api.login] left it.  When [api.login] throws, the action throws the
    same error, keeps the user it had and records the message of the error;
    when it returns, the user becomes the [user] of the answer and the
    error stays cleared. *)
Theorem login_action (baseUrl : str) server as_string (email password : str)
    (w : AuthStore.world) :
  let '(a, nw) := Session.login baseUrl server as_string email password
                    (AuthStore.net_world w) in
  let '(r, w') := AuthActions.login baseUrl server as_string email password
                    w in
  AuthStore.net_world w' = nw ∧
  AuthStore.isLoading (AuthStore.state w') = false ∧
  match a with
  | Returned response =>
      r = Returned tt ∧
      AuthStore.error (AuthStore.state w') = None ∧
      ∃ u, get response (lit "user") = inr u ∧
           AuthStore.user (AuthStore.state w') = AuthActions.nullable u
  | Threw e =>
      r = Threw e ∧
      AuthStore.error (AuthStore.state w') = Some (message_of e) ∧
      AuthStore.user (AuthStore.state w') = AuthStore.user (AuthStore.state w)
  end.
Proof.
  destruct (Session.login _ _ _ _ _ (AuthStore.net_world w)) as [a nw] eqn:Ha.
  unfold AuthActions.login, AuthStore.set, AuthStore.call, lift, catch, bind,
    update, throw.
  cbn -[Session.login]. rewrite Ha.
  destruct a as [response|e]; cbn; [| done].
  destruct (login_answer_not_null _ _ _ _ _ _ _ _ Ha) as [u Hu].
  rewrite Hu. cbn. split_and!; try done. by exists u.
Qed.

(** X8: [register] stops at the first call that fails.  When the
    registration request itself fails, no login is attempted: exactly one
    request has been sent, the client keeps its token, the user stays and
    the message of the error is recorded; the action throws that error. *)
Theorem register_stops_at_failure (baseUrl : str) server as_string
    (email password : str) (fullName : option str) (w : AuthStore.world)
    (e : thrown) :
  let nw := AuthStore.net_world w in
  let req := Api.HttpRequest (baseUrl ++ lit "/api/v1/auth/register")
               Api.POST (Session.json_headers (Api.api nw))
               (Api.JsonBody
                  (AuthActions.register_data email password fullName)) in
  Api.settle (lit "API request failed") (server (Api.sent nw) req) = Threw e →
  AuthActions.register baseUrl server as_string email password fullName w
  = (Threw e,
     AuthStore.World (Api.World (Api.api nw) (Api.sent nw ++ [req]))
       {| AuthStore.user := AuthStore.user (AuthStore.state w);
          AuthStore.isLoading := false;
          AuthStore.error := Some (message_of e) |}).
Proof.
  intros nw req Hfail.
  unfold AuthActions.register, AuthStore.set, AuthStore.call, lift, catch,
    bind, update, throw, Session.register.
  cbn -[Session.login Session.getCurrentUser Session.request].
  rewrite session_request_run. cbn -[Session.login Session.getCurrentUser].
  fold nw. fold req. by rewrite Hfail.
Qed.

(** X9: when registration, login and the request for the current user all
    succeed, [register] has sent the three requests in this order, the last
    one with the headers of the client as the login left it, so with the
    token just obtained; the user is the answer to that last request and no
    error is recorded. *)
Theorem register_success (baseUrl : str) server as_string
    (email password : str) (fullName : option str) (w : AuthStore.world)
    (j1 j2 j3 : json) (nw2 : Api.world) :
  let nw := AuthStore.net_world w in
  let req1 := Api.HttpRequest (baseUrl ++ lit "/api/v1/auth/register")
                Api.POST (Session.json_headers (Api.api nw))
                (Api.JsonBody
                   (AuthActions.register_data email password fullName)) in
  let nw1 := Api.World (Api.api nw) (Api.sent nw ++ [req1]) in
  let req3 := Api.HttpRequest (baseUrl ++ lit "/api/v1/auth/me") Api.GET
                (Session.json_headers (Api.api nw2)) Api.NoBody in
  Api.settle (lit "API request failed") (server (Api.sent nw) req1)
  = Returned j1 →
  Session.login baseUrl server as_string email password nw1
  = (Returned j2, nw2) →
  Api.settle (lit "API request failed") (server (Api.sent nw2) req3)
  = Returned j3 →
  AuthActions.register baseUrl server as_string email password fullName w
  = (Returned tt,
     AuthStore.World (Api.World (Api.api nw2) (Api.sent nw2 ++ [req3]))
       {| AuthStore.user := AuthActions.nullable (Some j3);
          AuthStore.isLoading := false;
          AuthStore.error := None |}).
Proof.
  intros nw req1 nw1 req3 H1 H2 H3.
  unfold AuthActions.register, AuthStore.set, AuthStore.call, lift, catch,
    bind, update, throw, Session.register, Session.getCurrentUser.
  cbn -[Session.login Session.request].
  rewrite session_request_run. cbn -[Session.login Session.request].
  fold nw. fold req1. rewrite H1. fold nw1. rewrite H2.
  cbn -[Session.request]. rewrite session_request_run. cbn.
  fold req3. by rewrite H3.
Qed.

(** X10: [checkAuth] never throws and ends with [isLoading = false].  It
    sends one GET to the verify endpoint; the user becomes the answer, or
    [null] when the request fails in any way.  It changes neither the
    recorded error nor the client: after a failed verification the token is
    still held and still in [localStorage]. *)
Theorem checkAuth_outcome (baseUrl : str) server (w : AuthStore.world) :
  let nw := AuthStore.net_world w in
  let req := Api.HttpRequest (baseUrl ++ lit "/api/v1/auth/verify") Api.GET
               (Session.json_headers (Api.api nw)) Api.NoBody in
  let '(r, w') := AuthActions.checkAuth baseUrl server w in
  r = Returned tt ∧
  AuthStore.net_world w' = Api.World (Api.api nw) (Api.sent nw ++ [req]) ∧
  AuthStore.isLoading (AuthStore.state w') = false ∧
  AuthStore.error (AuthStore.state w') = AuthStore.error (AuthStore.state w) ∧
  AuthStore.user (AuthStore.state w')
  = match Api.settle (lit "API request failed") (server (Api.sent nw) req) with
    | Returned user => AuthActions.nullable (Some user)
    | Threw _ => None
    end.
Proof.
  cbv zeta.
  unfold AuthActions.checkAuth, AuthStore.set, AuthStore.call, lift, catch,
    bind, update, Session.verifyToken.
  cbn -[Session.request]. rewrite session_request_run. cbn.
  by destruct (Api.settle _ _).
Qed.

(** ** The search page, further *)

(** X11: [handleSearch] never throws and always ends with
    [isSearching = false]; it changes neither the query text, the selection,
    the known docstores nor the client; and after a search for a text that
    is not blank [hasSearched] holds. *)
Theorem handleSearch_settles (baseUrl : str) net (w : SearchPage.world) :
  let '(r, w') := SearchPage.handleSearch baseUrl net w in
  r = Returned tt ∧
  SearchPage.isSearching (SearchPage.page w')
  = (if str_truthy (trim (SearchPage.query (SearchPage.page w))) then false
     else SearchPage.isSearching (SearchPage.page w)) ∧
  SearchPage.hasSearched (SearchPage.page w')
  = (if str_truthy (trim (SearchPage.query (SearchPage.page w))) then true
     else SearchPage.hasSearched (SearchPage.page w)) ∧
  SearchPage.query (SearchPage.page w') = SearchPage.query (SearchPage.page w) ∧
  SearchPage.selectedDocstores (SearchPage.page w')
  = SearchPage.selectedDocstores (SearchPage.page w) ∧
  SearchPage.docstores w' = SearchPage.docstores w ∧
  Api.api (SearchPage.net_world w') = Api.api (SearchPage.net_world w).
Proof.
  run_page.
  destruct (str_truthy _) eqn:Hq; cbn; [| done].
  destruct (SearchPage.selectedDocstores (SearchPage.page w))
    as [|a [|b rest]] eqn:Hsel; cbn.
  - destruct (SearchPage.docstores w) as [|d ds] eqn:Hds; cbn; [done |].
    destruct (Api.settle _ _) as [j|e]; cbn; [| done].
    by destruct (get j _) as [e|[r|]]; cbn.
  - destruct (Api.settle _ _) as [j|e]; cbn; [| done].
    by destruct (get j _) as [e|[r|]]; cbn.
  - destruct (Api.settle _ _) as [j|e]; cbn; [| done].
    by destruct (get j _) as [e|[r|]]; cbn.
Qed.

(** X12: when [handleSearch] sends a request, what it then shows depends on
    the outcome of that request only: the empty list after any failure (a
    rejected fetch, an answer that is not 2xx, a body that is not JSON or is
    [null]), the [results] of the answer when that value is truthy, and
    else the answer as a whole. *)
Theorem handleSearch_displays (baseUrl : str) net (w : SearchPage.world) :
  str_truthy (trim (SearchPage.query (SearchPage.page w))) = true →
  SearchPage.selectedDocstores (SearchPage.page w) ≠ [] ∨
  SearchPage.docstores w ≠ [] →
  let w' := (SearchPage.handleSearch baseUrl net w).2 in
  ∃ req, SearchPage.calls w' = SearchPage.calls w ++ [req] ∧
         SearchPage.results (SearchPage.page w')
         = SearchView.displayed
             (Api.settle (lit "API request failed") (net req)).
Proof.
  intros Hq Hsome. run_page. rewrite Hq; cbn.
  destruct (SearchPage.selectedDocstores (SearchPage.page w))
    as [|a [|b rest]] eqn:Hsel; cbn;
    [destruct (SearchPage.docstores w) as [|d ds] eqn:Hds; cbn;
       [by destruct Hsome |] | |];
    (match goal with
     | |- context [Api.settle ?f (net ?r)] =>
         exists r; destruct (Api.settle f (net r)) as [j|e]; cbn
     end;
     [destruct j as [| | | | |fields]; cbn; try (split; reflexivity);
      destruct (field _ fields) as [r|]; cbn; split; reflexivity
     | split; reflexivity]).
Qed.

(** One click flips the membership of the clicked id and of no other id. *)
Lemma toggle_elem (docstoreId x : str) (prev : list str) :
  x ∈ SearchPage.toggle docstoreId prev ↔
  (x = docstoreId ∧ docstoreId ∉ prev) ∨ (x ≠ docstoreId ∧ x ∈ prev).
Proof.
  destruct (decide (docstoreId ∈ prev)) as [Hin|Hin].
  - rewrite toggle_present by done. rewrite list_elem_of_filter. naive_solver.
  - rewrite toggle_absent by done.
    rewrite elem_of_app, list_elem_of_singleton.
    destruct (decide (x = docstoreId)) as [->|]; naive_solver.
Qed.

Lemma toggle_NoDup (docstoreId : str) (prev : list str) :
  NoDup prev → NoDup (SearchPage.toggle docstoreId prev).
Proof.
  intros Hnd. destruct (decide (docstoreId ∈ prev)) as [Hin|Hin].
  - rewrite toggle_present by done. by apply NoDup_filter.
  - rewrite toggle_absent by done. apply NoDup_app. split_and!; [done | |].
    + intros x Hx ->%list_elem_of_singleton. done.
    + apply NoDup_singleton.
Qed.

Lemma filter_keeps_all {A} (P : A → Prop) `{!∀ x, Decision (P x)}
    (l : list A) :
  (∀ x, x ∈ l → P x) → filter P l = l.
Proof.
  induction l as [|a l IH]; [done |]. intros Hall.
  rewrite filter_cons_True by (apply Hall; by left).
  f_equal. apply IH. intros x Hx. apply Hall. by right.
Qed.

Lemma after_clicks_snoc (sel clicks : list str) (c : str) :
  SearchView.after_clicks sel (clicks ++ [c])
  = SearchPage.toggle c (SearchView.after_clicks sel clicks).
Proof. unfold SearchView.after_clicks. by rewrite foldl_app. Qed.

Lemma clicked_snoc (x c : str) (clicks : list str) :
  SearchView.clicked x (clicks ++ [c])
  = SearchView.clicked x clicks + (if decide (c = x) then 1 else 0).
Proof.
  unfold SearchView.clicked. rewrite filter_app, length_app.
  rewrite filter_cons, filter_nil. by destruct (decide (c = x)).
Qed.

(** X13: starting from the empty selection of the page, after any sequence
    of clicks on checkboxes the selection has no duplicate, and a docstore
    is selected exactly when its checkbox was clicked an odd number of
    times. *)
Theorem selection_after_clicks (clicks : list str) :
  NoDup (SearchView.after_clicks [] clicks) ∧
  ∀ x, x ∈ SearchView.after_clicks [] clicks ↔
       Nat.Odd (SearchView.clicked x clicks).
Proof.
  induction clicks as [|c clicks [IHnd IH]] using rev_ind.
  - split; [constructor |]. intros x. split.
    + by intros ?%elem_of_nil.
    + intros [k Hk]. unfold SearchView.clicked in Hk. simpl in Hk. lia.
  - rewrite after_clicks_snoc. split; [by apply toggle_NoDup |].
    intros x. rewrite toggle_elem, clicked_snoc, !IH.
    destruct (decide (c = x)) as [->|Hne].
    + rewrite Nat.add_1_r, Nat.Odd_succ.
      pose proof (Nat.Even_or_Odd (SearchView.clicked x clicks)) as [He|Ho].
      * split; [done |]. intros _. left. split; [done |].
        intros Ho. by apply (Nat.Even_Odd_False _ He).
      * split; [| intros He; by destruct (Nat.Even_Odd_False _ He)].
        intros [[_ Hno]|[Hne _]]; done.
    + rewrite Nat.add_0_r. split; [| by right].
      intros [[-> _]|[_ H]]; done.
Qed.

(** X14: toggling an id that is not selected twice gives back the very
    same list; toggling a selected id twice, in a selection without
    duplicates, keeps the ids and their number and moves the id to the
    end. *)
Theorem toggle_twice_exact (docstoreId : str) (prev : list str) :
  NoDup prev →
  let twice :=
    SearchPage.toggle docstoreId (SearchPage.toggle docstoreId prev) in
  (docstoreId ∉ prev → twice = prev) ∧
  (docstoreId ∈ prev →
     twice = filter (λ x, x ≠ docstoreId) prev ++ [docstoreId] ∧
     twice ≡ₚ prev).
Proof.
  intros Hnd twice. subst twice. split.
  - intros Hno. rewrite (toggle_absent _ _ Hno), toggle_present
      by (apply elem_of_app; right; by left).
    rewrite filter_app, filter_cons, filter_nil, decide_False by naive_solver.
    rewrite app_nil_r. apply filter_keeps_all.
    intros x Hx ->. done.
  - intros Hin. rewrite (toggle_present _ _ Hin), toggle_absent
      by (rewrite list_elem_of_filter; naive_solver).
    split; [done |].
    apply NoDup_Permutation; [| done |].
    + rewrite <- (toggle_absent docstoreId)
        by (rewrite list_elem_of_filter; naive_solver).
      apply toggle_NoDup. by apply NoDup_filter.
    + intros x. rewrite elem_of_app, list_elem_of_filter,
        list_elem_of_singleton.
      destruct (decide (x = docstoreId)) as [->|]; naive_solver.
Qed.

Lemma toggle_twice_exact_witness :
  SearchPage.toggle (lit "vwl")
    (SearchPage.toggle (lit "vwl") [lit "vwl"; lit "finance"])
  ≡ₚ [lit "vwl"; lit "finance"].
Proof.
  apply (toggle_twice_exact (lit "vwl") [lit "vwl"; lit "finance"]).
  - apply NoDup_cons. split; [| apply NoDup_singleton].
    intros H%list_elem_of_singleton. by vm_compute in H.
  - by left.
Defined.

(** ** The docstore store, further *)

(** X15: a DELETE that the server answers with a 2xx and a body that is not
    JSON, such as an empty 204, makes [deleteDocstore] fail although the
    request was sent and accepted: it throws the error of [response.json()],
    keeps the deleted docstore in the list and records the message. *)
Theorem delete_answer_without_json (baseUrl : str) net (id : str)
    (w : DocstoreStore.world) (r : Api.response) :
  let nw := DocstoreStore.net_world w in
  let req := Api.HttpRequest (baseUrl ++ lit "/api/v1/docstores/" ++ id)
               Api.DELETE (Session.json_headers (Api.api nw)) Api.NoBody in
  net req = Api.Responded r →
  Api.ok r = true →
  Api.response_body r = None →
  DocstoreStore.deleteDocstore baseUrl net id w
  = (Threw (Thrown SyntaxError EngineInvalidJson),
     DocstoreStore.World (Api.World (Api.api nw) (Api.sent nw ++ [req]))
       {| DocstoreStore.docstores :=
            DocstoreStore.docstores (DocstoreStore.state w);
          DocstoreStore.currentDocstore :=
            DocstoreStore.currentDocstore (DocstoreStore.state w);
          DocstoreStore.isLoading := false;
          DocstoreStore.error := Some EngineInvalidJson |}).
Proof.
  intros nw req Hanswer Hok Hbody.
  unfold DocstoreStore.deleteDocstore, DocstoreStore.set, DocstoreStore.call,
    Api.deleteDocstore, lift, catch, bind, update, throw.
  rewrite request_run; cbn. fold nw. fold req.
  unfold Session.json_headers in req. fold req.
  rewrite Hanswer. unfold Api.settle. by rewrite Hok, Hbody.
Qed.

(** X16: [deleteDocstore] ends with [isLoading = false].  When it succeeds no
    error is recorded, also if one was before, and [currentDocstore] is
    cleared exactly when it is the deleted docstore; when it fails the
    message of the error is recorded and [currentDocstore] stays. *)
Theorem deleteDocstore_current (baseUrl : str) net (id : str)
    (w : DocstoreStore.world) :
  let s := DocstoreStore.state w in
  let '(r, w') := DocstoreStore.deleteDocstore baseUrl net id w in
  let s' := DocstoreStore.state w' in
  DocstoreStore.isLoading s' = false ∧
  match r with
  | Returned _ =>
      DocstoreStore.error s' = None ∧
      (∀ c, DocstoreStore.currentDocstore s' = Some c ↔
            DocstoreStore.currentDocstore s = Some c ∧
            DocstoreStore.id c ≠ id)
  | Threw e =>
      DocstoreStore.error s' = Some (message_of e) ∧
      DocstoreStore.currentDocstore s' = DocstoreStore.currentDocstore s
  end.
Proof.
  unfold DocstoreStore.deleteDocstore, DocstoreStore.set, DocstoreStore.call,
    Api.deleteDocstore, lift, catch, bind, update, throw.
  rewrite request_run; cbn.
  destruct (Api.settle _ _) as [j|e]; cbn; [| done].
  split_and!; [done | done |]. intros c.
  destruct (DocstoreStore.currentDocstore (DocstoreStore.state w)) as [c0|];
    [| naive_solver].
  destruct (decide (DocstoreStore.id c0 = id)); naive_solver.
Qed.

(** X17: ids go into the path of the URL as they are: asking for the docstore
    whose id is [docstoreId] followed by ["/documents/"] is the very request
    that lists the documents of [docstoreId]. *)
Theorem id_reaches_other_endpoint (baseUrl : str) server (docstoreId : str)
    (w : Api.world) :
  Session.getDocstore baseUrl server (docstoreId ++ lit "/documents/") w
  = Session.getDocuments baseUrl server docstoreId w.
Proof.
  unfold Session.getDocstore, Session.getDocuments.
  by rewrite !session_request_run.
Qed.

(** A request made from the docstore store. *)
Lemma store_request_run (baseUrl : str) server (endpoint : str)
    (options : Api.request_init) (w : DocstoreStore.world) :
  let nw := DocstoreStore.net_world w in
  let req := Api.HttpRequest (baseUrl ++ endpoint) (Api.init_method options)
               (Session.json_headers (Api.api nw)) (Api.init_body options) in
  DocstoreStore.call (Session.request baseUrl server endpoint options) w =
    (Api.settle (lit "API request failed") (server (Api.sent nw) req),
     DocstoreStore.World (Api.World (Api.api nw) (Api.sent nw ++ [req]))
                         (DocstoreStore.state w)).
Proof.
  cbv zeta. unfold DocstoreStore.call, lift.
  by rewrite session_request_run.
Qed.

Ltac run_store :=
  unfold DocstoreActions.fetchDocstores, DocstoreActions.createDocstore,
    DocstoreActions.getDocstore, DocstoreActions.updateDocstore,
    DocstoreActions.deleteDocstore, DocstoreActions.start,
    DocstoreActions.record_error, DocstoreStore.set,
    Session.getDocstores, Session.createDocstore, Session.getDocstore,
    Session.updateDocstore, Session.deleteDocstore,
    catch, bind, update, throw, ret;
  cbn -[DocstoreStore.call Session.request];
  rewrite store_request_run; cbn.

(** X18: [fetchDocstores] and [getDocstore] never throw and end with
    [isLoading = false], each after one GET.  An answer replaces the list,
    respectively [currentDocstore], and leaves no error; a failure keeps
    what was shown before and records the message of the error. *)
Theorem fetch_never_throws (baseUrl : str) server as_Docstore as_Docstores
    (id : str) (w : DocstoreStore.world) :
  let s := DocstoreStore.state w in
  let nw := DocstoreStore.net_world w in
  let get_ url := Api.HttpRequest url Api.GET
                    (Session.json_headers (Api.api nw)) Api.NoBody in
  let answer url :=
    Api.settle (lit "API request failed") (server (Api.sent nw) (get_ url)) in
  let after url := Api.World (Api.api nw) (Api.sent nw ++ [get_ url]) in
  DocstoreActions.fetchDocstores baseUrl server as_Docstores w
  = (Returned tt,
     DocstoreStore.World (after (baseUrl ++ lit "/api/v1/docstores/"))
       match answer (baseUrl ++ lit "/api/v1/docstores/") with
       | Returned j =>
           {| DocstoreStore.docstores := as_Docstores j;
              DocstoreStore.currentDocstore := DocstoreStore.currentDocstore s;
              DocstoreStore.isLoading := false;
              DocstoreStore.error := None |}
       | Threw e =>
           {| DocstoreStore.docstores := DocstoreStore.docstores s;
              DocstoreStore.currentDocstore := DocstoreStore.currentDocstore s;
              DocstoreStore.isLoading := false;
              DocstoreStore.error := Some (message_of e) |}
       end) ∧
  DocstoreActions.getDocstore baseUrl server as_Docstore id w
  = (Returned tt,
     DocstoreStore.World (after (baseUrl ++ lit "/api/v1/docstores/" ++ id))
       match answer (baseUrl ++ lit "/api/v1/docstores/" ++ id) with
       | Returned j =>
           {| DocstoreStore.docstores := DocstoreStore.docstores s;
              DocstoreStore.currentDocstore := Some (as_Docstore j);
              DocstoreStore.isLoading := false;
              DocstoreStore.error := None |}
       | Threw e =>
           {| DocstoreStore.docstores := DocstoreStore.docstores s;
              DocstoreStore.currentDocstore := DocstoreStore.currentDocstore s;
              DocstoreStore.isLoading := false;
              DocstoreStore.error := Some (message_of e) |}
       end).
Proof.
  cbv zeta. split; run_store; by destruct (Api.settle _ _).
Qed.

Lemma createDocstore_returned (baseUrl : str) server as_Docstore (data : json)
    (w w1 : DocstoreStore.world) (d : DocstoreStore.Docstore) :
  DocstoreActions.createDocstore baseUrl server as_Docstore data w
  = (Returned d, w1) →
  DocstoreStore.docstores (DocstoreStore.state w1)
  = DocstoreStore.docstores (DocstoreStore.state w) ++ [d] ∧
  DocstoreStore.currentDocstore (DocstoreStore.state w1)
  = DocstoreStore.currentDocstore (DocstoreStore.state w) ∧
  DocstoreStore.error (DocstoreStore.state w1) = None ∧
  DocstoreStore.isLoading (DocstoreStore.state w1) = false.
Proof.
  run_store. destruct (Api.settle _ _) as [j|e]; cbn; [| done].
  by intros [= <- <-].
Qed.

Lemma deleteDocstore_returned (baseUrl : str) server (id : str)
    (w w1 : DocstoreStore.world) :
  DocstoreActions.deleteDocstore baseUrl server id w = (Returned tt, w1) →
  DocstoreStore.docstores (DocstoreStore.state w1)
  = filter (λ d, DocstoreStore.id d ≠ id)
           (DocstoreStore.docstores (DocstoreStore.state w)).
Proof.
  run_store. destruct (Api.settle _ _) as [j|e]; cbn; [| done].
  by intros [= <-].
Qed.

(** X19: a created docstore goes to the end of the list and nothing else in
    the list changes; deleting it again gives back the list as it was before
    the creation, provided no docstore of the list had its id; in general
    the deletion also removes every older entry with that id. *)
Theorem create_then_delete (baseUrl : str) server as_Docstore (data : json)
    (w w1 w2 : DocstoreStore.world) (d : DocstoreStore.Docstore) :
  DocstoreActions.createDocstore baseUrl server as_Docstore data w
  = (Returned d, w1) →
  DocstoreActions.deleteDocstore baseUrl server (DocstoreStore.id d) w1
  = (Returned tt, w2) →
  let before := DocstoreStore.docstores (DocstoreStore.state w) in
  DocstoreStore.docstores (DocstoreStore.state w1) = before ++ [d] ∧
  DocstoreStore.docstores (DocstoreStore.state w2)
  = filter (λ x, DocstoreStore.id x ≠ DocstoreStore.id d) before ∧
  ((∀ x, x ∈ before → DocstoreStore.id x ≠ DocstoreStore.id d) →
   DocstoreStore.docstores (DocstoreStore.state w2) = before).
Proof.
  intros Hc Hd before.
  apply createDocstore_returned in Hc as (Hc & _).
  apply deleteDocstore_returned in Hd.
  assert (DocstoreStore.docstores (DocstoreStore.state w2)
          = filter (λ x, DocstoreStore.id x ≠ DocstoreStore.id d) before)
    as Hfilter.
  { rewrite Hd, Hc, filter_app, filter_cons, filter_nil.
    rewrite decide_False by naive_solver. by rewrite app_nil_r. }
  split_and!; [done | done |].
  intros Hfresh. rewrite Hfilter. by apply filter_keeps_all.
Qed.

(** X20: an update that succeeds keeps the length and the order of the list:
    every entry with the updated id becomes the docstore of the answer and
    every other entry stays where it is; when no entry has the id, the list
    does not change at all.  [currentDocstore] becomes the answer exactly
    when it has the updated id. *)
Theorem update_in_place (baseUrl : str) server as_Docstore (id : str)
    (data : json) (w w1 : DocstoreStore.world) :
  DocstoreActions.updateDocstore baseUrl server as_Docstore id data w
  = (Returned tt, w1) →
  let before := DocstoreStore.docstores (DocstoreStore.state w) in
  let after := DocstoreStore.docstores (DocstoreStore.state w1) in
  ∃ docstore,
    length after = length before ∧
    (∀ i x, before !! i = Some x →
            after !! i
            = Some (if decide (DocstoreStore.id x = id) then docstore else x)) ∧
    ((∀ x, x ∈ before → DocstoreStore.id x ≠ id) → after = before) ∧
    DocstoreStore.currentDocstore (DocstoreStore.state w1)
    = match DocstoreStore.currentDocstore (DocstoreStore.state w) with
      | Some c => if decide (DocstoreStore.id c = id) then Some docstore
                  else Some c
      | None => None
      end.
Proof.
  run_store. destruct (Api.settle _ _) as [j|e]; cbn; [| done].
  intros [= <-]. cbn. exists (as_Docstore j). split_and!.
  - by rewrite length_fmap.
  - intros i x Hx. by rewrite list_lookup_fmap, Hx.
  - intros Hnone.
    induction (DocstoreStore.docstores (DocstoreStore.state w)) as [|x l IH];
      [done |].
    rewrite fmap_cons, decide_False by (apply Hnone; by left).
    f_equal. apply IH. intros y Hy. apply Hnone. by right.
  - done.
Qed.

(** ** The docstore detail page *)

Lemma getDocstore_run (baseUrl : str) server as_Docstore (id : str)
    (w : DocstoreStore.world) :
  let nw := DocstoreStore.net_world w in
  let req := DetailPage.docstore_request baseUrl id (Api.api nw) in
  ∃ s', DocstoreActions.getDocstore baseUrl server as_Docstore id w
        = (Returned tt,
           DocstoreStore.World (Api.World (Api.api nw) (Api.sent nw ++ [req]))
                               s') ∧
        DocstoreStore.docstores s'
        = DocstoreStore.docstores (DocstoreStore.state w).
Proof.
  cbv zeta. run_store. unfold DetailPage.docstore_request.
  destruct (Api.settle _ _); eexists; split; reflexivity.
Qed.

(** The run of [loadDocstoreData], request by request. *)
Lemma loadDocstoreData_run (baseUrl : str) server as_Docstore
    (docstoreId : str) (w : DetailPage.world) :
  let c := DetailPage.client w in
  let req1 := DetailPage.docstore_request baseUrl docstoreId c in
  let req2 := DetailPage.documents_request baseUrl docstoreId c in
  let answer := Api.settle (lit "API request failed")
                  (server (DetailPage.calls w ++ [req1]) req2) in
  let '(r, w') := DetailPage.loadDocstoreData baseUrl server as_Docstore
                    docstoreId w in
  r = Returned tt ∧
  DetailPage.calls w' = DetailPage.calls w ++ [req1; req2] ∧
  DetailPage.client w' = c ∧
  DetailPage.alerts w' = DetailPage.alerts w ∧
  DetailPage.page w'
  = DetailPage.setIsLoading false
      (match answer with
       | Returned docs => DetailPage.setDocuments docs (DetailPage.page w)
       | Threw _ => DetailPage.page w
       end).
Proof.
  cbv zeta.
  unfold DetailPage.loadDocstoreData, DetailPage.set, DetailPage.call,
    DetailPage.in_store, Session.getDocuments, lift, finally, catch, bind,
    update, ret.
  cbn -[DocstoreActions.getDocstore DocstoreStore.call].
  destruct (getDocstore_run baseUrl server as_Docstore docstoreId
              (DetailPage.store w)) as (s' & -> & _).
  cbn -[DocstoreStore.call]. rewrite store_request_run. cbn.
  unfold DetailPage.calls, DetailPage.client, DetailPage.documents_request.
  destruct (Api.settle _ _) as [docs|e]; cbn;
    (split_and!; [done | by rewrite <- app_assoc | done | done | done]).
Qed.

(** X21: a reload of the page never throws and shows no alert.  It always
    sends two requests, for the docstore and then for its documents, the
    second also when the first failed; it ends with [isLoading = false], and
    the documents on display change only when the second request
    succeeds. *)
Theorem loadDocstoreData_outcome (baseUrl : str) server as_Docstore
    (docstoreId : str) (w : DetailPage.world) :
  let c := DetailPage.client w in
  let req1 := DetailPage.docstore_request baseUrl docstoreId c in
  let req2 := DetailPage.documents_request baseUrl docstoreId c in
  let answer := Api.settle (lit "API request failed")
                  (server (DetailPage.calls w ++ [req1]) req2) in
  let '(r, w') := DetailPage.loadDocstoreData baseUrl server as_Docstore
                    docstoreId w in
  r = Returned tt ∧
  DetailPage.calls w' = DetailPage.calls w ++ [req1; req2] ∧
  DetailPage.client w' = c ∧
  DetailPage.alerts w' = DetailPage.alerts w ∧
  DetailPage.page w'
  = DetailPage.setIsLoading false
      (match answer with
       | Returned docs => DetailPage.setDocuments docs (DetailPage.page w)
       | Threw _ => DetailPage.page w
       end).
Proof.
  exact (loadDocstoreData_run baseUrl server as_Docstore docstoreId w).
Qed.

Lemma upload_call_run (baseUrl : str) server (docstoreId : str)
    (files : list Api.file) (w : DetailPage.world) :
  let req := DetailPage.upload_request baseUrl docstoreId files
               (DetailPage.client w) in
  DetailPage.call (Session.uploadDocuments baseUrl server docstoreId files) w
  = (Api.settle (lit "Document upload failed")
       (server (DetailPage.calls w) req),
     DetailPage.World
       (DocstoreStore.World
          (Api.World (DetailPage.client w) (DetailPage.calls w ++ [req]))
          (DocstoreStore.state (DetailPage.store w)))
       (DetailPage.page w) (DetailPage.alerts w)).
Proof.
  cbv zeta.
  unfold DetailPage.call, DetailPage.in_store, DocstoreStore.call, lift,
    Session.uploadDocuments.
  by rewrite uploadDocuments_run.
Qed.

(** X22: [handleUpload] with no file selected does nothing at all.  When
    the upload request fails, that request is the only one sent and nothing
    is thrown: there is no reload, the selected files and the dialog stay
    as they are for another try, one alert is shown and [isUploading] is
    [false] again. *)
Theorem handleUpload_failure (baseUrl : str) server as_Docstore
    (docstoreId : str) (w : DetailPage.world) (e : thrown) :
  let files := DetailPage.selectedFiles (DetailPage.page w) in
  let req := DetailPage.upload_request baseUrl docstoreId files
               (DetailPage.client w) in
  let run := DetailPage.handleUpload baseUrl server as_Docstore docstoreId w in
  (files = [] → run = (Returned tt, w)) ∧
  (files ≠ [] →
   Api.settle (lit "Document upload failed") (server (DetailPage.calls w) req)
   = Threw e →
   run = (Returned tt,
          DetailPage.World
            (DocstoreStore.World
               (Api.World (DetailPage.client w) (DetailPage.calls w ++ [req]))
               (DocstoreStore.state (DetailPage.store w)))
            (DetailPage.setIsUploading false (DetailPage.page w))
            (DetailPage.alerts w
               ++ [lit "Failed to upload documents. Please try again."]))).
Proof.
  cbv zeta. unfold DetailPage.handleUpload. split.
  - by intros ->.
  - intros Hfiles Hfail.
    destruct (DetailPage.selectedFiles (DetailPage.page w)) as [|f fs] eqn:Hsel;
      [done |].
    unfold DetailPage.set, DetailPage.alert, finally, catch, bind, update.
    cbn -[DetailPage.call DetailPage.loadDocstoreData].
    rewrite upload_call_run.
    cbn -[DetailPage.loadDocstoreData].
    unfold DetailPage.calls, DetailPage.client in *. cbn in *.
    by rewrite Hfail.
Qed.

(** X23: when the upload request succeeds, [handleUpload] clears the
    selection and the file input, closes the dialog and reloads the page:
    three requests are sent, the upload and then the two of the reload.  It
    does not throw and shows no alert, not even when the reload fails; then
    the documents shown are the old ones. *)
Theorem handleUpload_success (baseUrl : str) server as_Docstore
    (docstoreId : str) (w : DetailPage.world) (j : json) :
  let files := DetailPage.selectedFiles (DetailPage.page w) in
  let c := DetailPage.client w in
  let req := DetailPage.upload_request baseUrl docstoreId files c in
  let req1 := DetailPage.docstore_request baseUrl docstoreId c in
  let req2 := DetailPage.documents_request baseUrl docstoreId c in
  let answer := Api.settle (lit "API request failed")
                  (server (DetailPage.calls w ++ [req; req1]) req2) in
  files ≠ [] →
  Api.settle (lit "Document upload failed") (server (DetailPage.calls w) req)
  = Returned j →
  let '(r, w') := DetailPage.handleUpload baseUrl server as_Docstore
                    docstoreId w in
  r = Returned tt ∧
  DetailPage.calls w' = DetailPage.calls w ++ [req; req1; req2] ∧
  DetailPage.alerts w' = DetailPage.alerts w ∧
  DetailPage.page w'
  = {| DetailPage.documents :=
         match answer with
         | Returned docs => docs
         | Threw _ => DetailPage.documents (DetailPage.page w)
         end;
       DetailPage.isLoading := false;
       DetailPage.isUploading := false;
       DetailPage.isUploadDialogOpen := false;
       DetailPage.selectedFiles := [];
       DetailPage.fileInput :=
         match DetailPage.fileInput (DetailPage.page w) with
         | Some _ => Some []
         | None => None
         end |}.
Proof.
  cbv zeta. intros Hfiles Hok. unfold DetailPage.handleUpload.
  destruct (DetailPage.selectedFiles (DetailPage.page w)) as [|f fs] eqn:Hsel;
    [done |].
  unfold DetailPage.set, DetailPage.alert, finally, catch, bind, update.
  cbn -[DetailPage.call DetailPage.loadDocstoreData].
  rewrite upload_call_run.
  cbn -[DetailPage.loadDocstoreData].
  unfold DetailPage.calls, DetailPage.client in *.
  cbn -[DetailPage.loadDocstoreData] in *.
  rewrite Hok. cbn -[DetailPage.loadDocstoreData].
  match goal with
  | |- context [DetailPage.loadDocstoreData _ _ _ _ ?w0] =>
      pose proof (loadDocstoreData_run baseUrl server as_Docstore
                    docstoreId w0) as Hload;
      destruct (DetailPage.loadDocstoreData baseUrl server as_Docstore
                  docstoreId w0) as [r1 w1]
  end.
  cbv zeta in Hload. unfold DetailPage.calls, DetailPage.client in Hload.
  cbn in Hload. destruct Hload as (-> & Hcalls & Hclient & Halerts & Hpage).
  cbn. rewrite Hcalls, Halerts, Hpage, <- !app_assoc. cbn.
  split_and!; try reflexivity.
  match goal with
  | |- context [match ?o with Returned _ => _ | Threw _ => _ end] =>
      destruct o; reflexivity
  end.
Qed.

Lemma delete_call_run (baseUrl : str) server (documentId : str)
    (w : DetailPage.world) :
  let req := DetailPage.delete_request baseUrl documentId
               (DetailPage.client w) in
  DetailPage.call (Session.deleteDocument baseUrl server documentId) w
  = (Api.settle (lit "API request failed") (server (DetailPage.calls w) req),
     DetailPage.World
       (DocstoreStore.World
          (Api.World (DetailPage.client w) (DetailPage.calls w ++ [req]))
          (DocstoreStore.state (DetailPage.store w)))
       (DetailPage.page w) (DetailPage.alerts w)).
Proof.
  cbv zeta.
  unfold DetailPage.call, DetailPage.in_store, lift, Session.deleteDocument.
  by rewrite store_request_run.
Qed.

(** X24: [handleDeleteDocument] does nothing at all when the user declines
    the confirmation.  When the user accepts and the DELETE request fails,
    also by a 2xx answer with no JSON body, that request is the only one
    sent: the page is not reloaded, the document stays in the list shown,
    one alert is shown and nothing is thrown. *)
Theorem handleDeleteDocument_failure (baseUrl : str) server as_Docstore
    (docstoreId documentId : str) (w : DetailPage.world) (e : thrown) :
  let req := DetailPage.delete_request baseUrl documentId
               (DetailPage.client w) in
  let run := DetailPage.handleDeleteDocument baseUrl server as_Docstore
               docstoreId in
  run false documentId w = (Returned tt, w) ∧
  (Api.settle (lit "API request failed") (server (DetailPage.calls w) req)
   = Threw e →
   run true documentId w
   = (Returned tt,
      DetailPage.World
        (DocstoreStore.World
           (Api.World (DetailPage.client w) (DetailPage.calls w ++ [req]))
           (DocstoreStore.state (DetailPage.store w)))
        (DetailPage.page w)
        (DetailPage.alerts w
           ++ [lit "Failed to delete document. Please try again."]))).
Proof.
  cbv zeta. unfold DetailPage.handleDeleteDocument. split; [done |].
  intros Hfail.
  unfold DetailPage.alert, catch, bind, update.
  cbn -[DetailPage.call DetailPage.loadDocstoreData].
  rewrite delete_call_run.
  cbn -[DetailPage.loadDocstoreData].
  by rewrite Hfail.
Qed.

(** X25: when the user accepts and the DELETE request succeeds,
    [handleDeleteDocument] reloads the page: three requests are sent, the
    deletion and then the two of the reload.  It does not throw and shows no
    alert, not even when the reload fails; then the deleted document is
    still in the list shown. *)
Theorem handleDeleteDocument_success (baseUrl : str) server as_Docstore
    (docstoreId documentId : str) (w : DetailPage.world) (j : json) :
  let c := DetailPage.client w in
  let req := DetailPage.delete_request baseUrl documentId c in
  let req1 := DetailPage.docstore_request baseUrl docstoreId c in
  let req2 := DetailPage.documents_request baseUrl docstoreId c in
  let answer := Api.settle (lit "API request failed")
                  (server (DetailPage.calls w ++ [req; req1]) req2) in
  Api.settle (lit "API request failed") (server (DetailPage.calls w) req)
  = Returned j →
  let '(r, w') := DetailPage.handleDeleteDocument baseUrl server as_Docstore
                    docstoreId true documentId w in
  r = Returned tt ∧
  DetailPage.calls w' = DetailPage.calls w ++ [req; req1; req2] ∧
  DetailPage.alerts w' = DetailPage.alerts w ∧
  DetailPage.page w'
  = DetailPage.setIsLoading false
      (match answer with
       | Returned docs => DetailPage.setDocuments docs (DetailPage.page w)
       | Threw _ => DetailPage.page w
       end).
Proof.
  cbv zeta. intros Hok. unfold DetailPage.handleDeleteDocument.
  unfold DetailPage.alert, catch, bind, update.
  cbn -[DetailPage.call DetailPage.loadDocstoreData].
  rewrite delete_call_run.
  cbn -[DetailPage.loadDocstoreData].
  rewrite Hok. cbn -[DetailPage.loadDocstoreData].
  match goal with
  | |- context [DetailPage.loadDocstoreData _ _ _ _ ?w0] =>
      pose proof (loadDocstoreData_run baseUrl server as_Docstore
                    docstoreId w0) as Hload;
      destruct (DetailPage.loadDocstoreData baseUrl server as_Docstore
                  docstoreId w0) as [r1 w1]
  end.
  cbv zeta in Hload. unfold DetailPage.calls, DetailPage.client in *.
  cbn in Hload. destruct Hload as (-> & Hcalls & Hclient & Halerts & Hpage).
  cbn. rewrite Hcalls, Halerts, Hpage, <- !app_assoc. cbn.
  split_and!; reflexivity.
Qed.

(** X26: [handleFileSelect] replaces the selection by the files of the
    input, and leaves it alone when the input has none to give; an upload
    right after it sends exactly the files selected last, in their order. *)
Theorem handleFileSelect_then_upload (baseUrl : str) server as_Docstore
    (docstoreId : str) (w : DetailPage.world) (f : Api.file)
    (fs : list Api.file) :
  let w1 := (DetailPage.handleFileSelect (Some (f :: fs)) w).2 in
  let w2 := (DetailPage.handleUpload baseUrl server as_Docstore docstoreId
               w1).2 in
  DetailPage.handleFileSelect None w = (Returned tt, w) ∧
  ∃ rest,
    DetailPage.calls w2
    = DetailPage.calls w
        ++ DetailPage.upload_request baseUrl docstoreId (f :: fs)
             (DetailPage.client w) :: rest.
Proof.
  cbv zeta. split; [done |].
  unfold DetailPage.handleUpload, DetailPage.handleFileSelect.
  cbn -[DetailPage.call DetailPage.loadDocstoreData DetailPage.set
        DetailPage.alert].
  unfold DetailPage.set at 1, DetailPage.alert, finally, catch, bind, update.
  cbn -[DetailPage.call DetailPage.loadDocstoreData].
  rewrite upload_call_run.
  cbn -[DetailPage.loadDocstoreData].
  unfold DetailPage.calls, DetailPage.client.
  cbn -[DetailPage.loadDocstoreData].
  destruct (Api.settle _ _) as [j|e]; cbn -[DetailPage.loadDocstoreData].
  - match goal with
    | |- context [DetailPage.loadDocstoreData _ _ _ _ ?w0] =>
        pose proof (loadDocstoreData_run baseUrl server as_Docstore
                      docstoreId w0) as Hload;
        destruct (DetailPage.loadDocstoreData baseUrl server as_Docstore
                    docstoreId w0) as [r1 w1]
    end.
    cbv zeta in Hload. unfold DetailPage.calls, DetailPage.client in Hload.
    cbn in Hload. destruct Hload as (-> & Hcalls & _).
    cbn. rewrite Hcalls, <- app_assoc. by eexists.
  - by exists [].
Qed.

(** X27: [handleCreateDocstore] never throws and sends one request, the
    POST of the form as it stands.  When the creation fails the dialog and
    the form stay as they are and the store holds the message of the
    failure; when it succeeds the dialog is closed, the form is back at its
    initial values and the new docstore is the last of the list. *)
Theorem handleCreateDocstore_outcome (baseUrl : str) server as_Docstore
    (w : Dashboard.world) :
  let nw := DocstoreStore.net_world (Dashboard.store w) in
  let req := Api.HttpRequest (baseUrl ++ lit "/api/v1/docstores/") Api.POST
               (Session.json_headers (Api.api nw))
               (Api.JsonBody
                  (Dashboard.form_json (Dashboard.formData (Dashboard.page w))))
  in
  let answer := Api.settle (lit "API request failed")
                  (server (Api.sent nw) req) in
  let '(r, w') := Dashboard.handleCreateDocstore baseUrl server as_Docstore
                    w in
  let s := DocstoreStore.state (Dashboard.store w) in
  let s' := DocstoreStore.state (Dashboard.store w') in
  r = Returned tt ∧
  Api.sent (DocstoreStore.net_world (Dashboard.store w'))
  = Api.sent nw ++ [req] ∧
  DocstoreStore.isLoading s' = false ∧
  match answer with
  | Returned j =>
      Dashboard.page w'
      = {| Dashboard.isCreateDialogOpen := false;
           Dashboard.formData := Dashboard.blank_form |} ∧
      DocstoreStore.docstores s'
      = DocstoreStore.docstores s ++ [as_Docstore j] ∧
      DocstoreStore.error s' = None
  | Threw e =>
      Dashboard.page w' = Dashboard.page w ∧
      DocstoreStore.docstores s' = DocstoreStore.docstores s ∧
      DocstoreStore.error s' = Some (message_of e)
  end.
Proof.
  cbv zeta.
  unfold Dashboard.handleCreateDocstore, Dashboard.set, Dashboard.in_store,
    DocstoreActions.clearError, DocstoreActions.createDocstore,
    DocstoreActions.start, DocstoreActions.record_error,
    Session.createDocstore, DocstoreStore.set, lift, catch, bind, update,
    ret, throw.
  cbn -[DocstoreStore.call]. rewrite store_request_run. cbn.
  destruct (Api.settle _ _) as [j|e]; cbn; split_and!; reflexivity.
Qed.

(** The run of [loadPipelines], request by request. *)
Lemma loadPipelines_run (baseUrl : str) server as_Docstore
    (docstoreId : str) (w : PipelinesPage.world) :
  let c := Api.api (DocstoreStore.net_world (PipelinesPage.store w)) in
  let req1 := DetailPage.docstore_request baseUrl docstoreId c in
  let req2 := Api.HttpRequest
                (baseUrl ++ lit "/api/v1/docstores/" ++ docstoreId
                         ++ lit "/pipelines/")
                Api.GET (Session.json_headers c) Api.NoBody in
  let answer := Api.settle (lit "API request failed")
                  (server (PipelinesPage.calls w ++ [req1]) req2) in
  let '(r, w') := PipelinesPage.loadPipelines baseUrl server as_Docstore
                    docstoreId w in
  r = Returned tt ∧
  PipelinesPage.calls w' = PipelinesPage.calls w ++ [req1; req2] ∧
  Api.api (DocstoreStore.net_world (PipelinesPage.store w')) = c ∧
  PipelinesPage.alerts w' = PipelinesPage.alerts w ∧
  PipelinesPage.page w'
  = PipelinesPage.setIsLoading false
      (match answer with
       | Returned ps => PipelinesPage.setPipelines ps (PipelinesPage.page w)
       | Threw _ => PipelinesPage.page w
       end).
Proof.
  cbv zeta.
  unfold PipelinesPage.loadPipelines, PipelinesPage.set, PipelinesPage.call,
    PipelinesPage.in_store, Session.getPipelines, lift, finally, catch, bind,
    update, ret.
  cbn -[DocstoreActions.getDocstore DocstoreStore.call].
  destruct (getDocstore_run baseUrl server as_Docstore docstoreId
              (PipelinesPage.store w)) as (s' & -> & _).
  cbn -[DocstoreStore.call]. rewrite store_request_run. cbn.
  unfold PipelinesPage.calls, DetailPage.docstore_request.
  destruct (Api.settle _ _) as [ps|e]; cbn;
    (split_and!; [done | by rewrite <- app_assoc | done | done | done]).
Qed.

Lemma pipelines_call_run (baseUrl : str) server (endpoint : str)
    (options : Api.request_init) (w : PipelinesPage.world) :
  let nw := DocstoreStore.net_world (PipelinesPage.store w) in
  let req := Api.HttpRequest (baseUrl ++ endpoint) (Api.init_method options)
               (Session.json_headers (Api.api nw)) (Api.init_body options) in
  PipelinesPage.call (Session.request baseUrl server endpoint options) w
  = (Api.settle (lit "API request failed") (server (Api.sent nw) req),
     PipelinesPage.World
       (DocstoreStore.World (Api.World (Api.api nw) (Api.sent nw ++ [req]))
          (DocstoreStore.state (PipelinesPage.store w)))
       (PipelinesPage.page w) (PipelinesPage.alerts w)).
Proof.
  cbv zeta. unfold PipelinesPage.call, PipelinesPage.in_store, lift.
  by rewrite store_request_run.
Qed.

(** X28: [handleDeployPipeline] never throws and always ends with
    [isDeploying] back at [null], whatever the server answers to the
    deployment and to the reload.  Its first request is the POST to the
    deploy endpoint of the pipeline; when that one fails it is the only
    request, the list shown is not reloaded and one alert is shown; when it
    succeeds no alert is shown and the two requests of the reload follow. *)
Theorem handleDeployPipeline_outcome (baseUrl : str) server as_Docstore
    (docstoreId pipelineId : str) (w : PipelinesPage.world) :
  let c := Api.api (DocstoreStore.net_world (PipelinesPage.store w)) in
  let req := Api.HttpRequest
               (baseUrl ++ lit "/api/v1/pipelines/" ++ pipelineId
                        ++ lit "/deploy")
               Api.POST (Session.json_headers c) Api.NoBody in
  let '(r, w') := PipelinesPage.handleDeployPipeline baseUrl server
                    as_Docstore docstoreId pipelineId w in
  r = Returned tt ∧
  PipelinesPage.isDeploying (PipelinesPage.page w') = None ∧
  match Api.settle (lit "API request failed")
          (server (PipelinesPage.calls w) req) with
  | Threw _ =>
      PipelinesPage.calls w' = PipelinesPage.calls w ++ [req] ∧
      PipelinesPage.pipelines (PipelinesPage.page w')
      = PipelinesPage.pipelines (PipelinesPage.page w) ∧
      PipelinesPage.alerts w'
      = PipelinesPage.alerts w
          ++ [lit "Failed to deploy pipeline. Please try again."]
  | Returned _ =>
      (∃ req1 req2,
         PipelinesPage.calls w' = PipelinesPage.calls w ++ [req; req1; req2]) ∧
      PipelinesPage.alerts w' = PipelinesPage.alerts w
  end.
Proof.
  cbv zeta. unfold PipelinesPage.handleDeployPipeline, Session.deployPipeline.
  unfold PipelinesPage.set at 1, PipelinesPage.alert, finally, catch, bind,
    update.
  cbn -[PipelinesPage.call PipelinesPage.loadPipelines].
  rewrite pipelines_call_run.
  cbn -[PipelinesPage.loadPipelines].
  unfold PipelinesPage.calls.
  destruct (Api.settle _ _) as [j|e]; cbn -[PipelinesPage.loadPipelines].
  - match goal with
    | |- context [PipelinesPage.loadPipelines _ _ _ _ ?w0] =>
        pose proof (loadPipelines_run baseUrl server as_Docstore
                      docstoreId w0) as Hload;
        destruct (PipelinesPage.loadPipelines baseUrl server as_Docstore
                    docstoreId w0) as [r1 w1]
    end.
    cbv zeta in Hload. unfold PipelinesPage.calls in Hload.
    cbn in Hload. destruct Hload as (-> & Hcalls & Hclient & Halerts & Hpage).
    cbn. rewrite Hcalls, Halerts, <- !app_assoc. cbn.
    split_and!; [done | done | by eexists _, _ | done].
  - split_and!; done.
Qed.

(** X29: [handleCreatePipeline] never throws and always ends with
    [isCreating = false].  Its first request is the POST to the generate
    endpoint of the docstore, with the pipeline type selected on the page
    as [pipeline_type].  When that request fails the dialog stays as it is
    and one alert is shown; when it succeeds the dialog is closed and no
    alert is shown, also when the reload after it fails. *)
Theorem handleCreatePipeline_outcome (baseUrl : str) server as_Docstore
    (docstoreId : str) (w : PipelinesPage.world) :
  let c := Api.api (DocstoreStore.net_world (PipelinesPage.store w)) in
  let p := PipelinesPage.page w in
  let req := Api.HttpRequest
               (baseUrl ++ lit "/api/v1/docstores/" ++ docstoreId
                        ++ lit "/pipelines/generate")
               Api.POST (Session.json_headers c)
               (Api.JsonBody
                  (JObj [(lit "pipeline_type",
                          JStr (PipelinesPage.type_name
                                  (PipelinesPage.selectedPipelineType p)))]))
  in
  let '(r, w') := PipelinesPage.handleCreatePipeline baseUrl server
                    as_Docstore docstoreId w in
  let p' := PipelinesPage.page w' in
  r = Returned tt ∧
  PipelinesPage.isCreating p' = false ∧
  (∃ rest, PipelinesPage.calls w' = PipelinesPage.calls w ++ req :: rest) ∧
  match Api.settle (lit "API request failed")
          (server (PipelinesPage.calls w) req) with
  | Threw _ =>
      PipelinesPage.isCreateDialogOpen p'
      = PipelinesPage.isCreateDialogOpen p ∧
      PipelinesPage.pipelines p' = PipelinesPage.pipelines p ∧
      PipelinesPage.alerts w'
      = PipelinesPage.alerts w
          ++ [lit "Failed to create pipeline. Please try again."]
  | Returned _ =>
      PipelinesPage.isCreateDialogOpen p' = false ∧
      PipelinesPage.alerts w' = PipelinesPage.alerts w
  end.
Proof.
  cbv zeta. unfold PipelinesPage.handleCreatePipeline, Session.createPipeline.
  unfold PipelinesPage.set, PipelinesPage.alert, finally, catch, bind, update.
  cbn -[PipelinesPage.call PipelinesPage.loadPipelines].
  rewrite pipelines_call_run.
  cbn -[PipelinesPage.loadPipelines].
  unfold PipelinesPage.calls.
  destruct (Api.settle _ _) as [j|e]; cbn -[PipelinesPage.loadPipelines].
  - match goal with
    | |- context [PipelinesPage.loadPipelines _ _ _ _ ?w0] =>
        pose proof (loadPipelines_run baseUrl server as_Docstore
                      docstoreId w0) as Hload;
        destruct (PipelinesPage.loadPipelines baseUrl server as_Docstore
                    docstoreId w0) as [r1 w1]
    end.
    cbv zeta in Hload. unfold PipelinesPage.calls in Hload.
    cbn in Hload. destruct Hload as (-> & Hcalls & Hclient & Halerts & Hpage).
    cbn. rewrite Hcalls, Halerts, Hpage, <- !app_assoc. cbn.
    split_and!; try done; [by eexists |].
    match goal with
    | |- context [match ?o with Returned _ => _ | Threw _ => _ end] =>
        by destruct o
    end.
  - split_and!; [done | done | by exists [] | done | done | done].
Qed.

(** ** Instances *)

Lemma token_frame_witness :
  let c := Api.api Sample.client in
  Api.localStorage (Api.setToken (lit "fresh") c) !! lit "theme"
  = Api.localStorage c !! lit "theme".
Proof.
  intros c.
  refine (proj1 (proj2 (token_frame c (lit "fresh")) (lit "theme") _)).
  by vm_compute.
Defined.

Lemma login_stores_token_witness :
  let server := Fixture.answering (JObj Fixture.login_fields) in
  let w1 := (Session.login Sample.baseUrl server Fixture.as_string
               (lit "ada@example.org") (lit "pw") Sample.client).2 in
  Api.token (Api.api w1) = Some (lit "fresh").
Proof.
  intros server w1. subst w1.
  pose proof (login_stores_token Sample.baseUrl server Fixture.as_string
                (lit "ada@example.org") (lit "pw") Sample.client
                (Api.Response 200 (Some (JObj Fixture.login_fields)))
                Fixture.login_fields (lit "fresh")
                (lit "/api/v1/auth/me") Api.default_init
                eq_refl eq_refl eq_refl eq_refl eq_refl) as H.
  cbv zeta in H.
  destruct (Session.login _ _ _ _ _ _) as [res w1].
  apply H. by vm_compute.
Defined.

Lemma login_failure_keeps_token_witness :
  (Session.login Sample.baseUrl Fixture.down Fixture.as_string
     (lit "ada@example.org") (lit "pw") Sample.client).1
  = Threw Fixture.failure.
Proof.
  by rewrite (login_failure_keeps_token Sample.baseUrl Fixture.down
                Fixture.as_string (lit "ada@example.org") (lit "pw")
                Sample.client Fixture.failure eq_refl).
Defined.

Lemma register_stops_at_failure_witness :
  let w := AuthStore.World Sample.client AuthStore.initial in
  let w' := (AuthActions.register Sample.baseUrl Fixture.down
               Fixture.as_string (lit "ada@example.org") (lit "pw")
               (Some (lit "Ada")) w).2 in
  length (Api.sent (AuthStore.net_world w')) = 1.
Proof.
  intros w w'. subst w'.
  by rewrite (register_stops_at_failure Sample.baseUrl Fixture.down
                Fixture.as_string (lit "ada@example.org") (lit "pw")
                (Some (lit "Ada")) w Fixture.failure eq_refl).
Defined.

Lemma register_success_witness :
  let server := Fixture.answering (JObj Fixture.login_fields) in
  let w := AuthStore.World Sample.client AuthStore.initial in
  let w' := (AuthActions.register Sample.baseUrl server Fixture.as_string
               (lit "ada@example.org") (lit "pw") None w).2 in
  AuthStore.user (AuthStore.state w') = Some (JObj Fixture.login_fields) ∧
  length (Api.sent (AuthStore.net_world w')) = 3.
Proof.
  intros server w w'. subst w'.
  rewrite (register_success Sample.baseUrl server Fixture.as_string
             (lit "ada@example.org") (lit "pw") None w
             (JObj Fixture.login_fields) (JObj Fixture.login_fields)
             (JObj Fixture.login_fields)
             (Session.login Sample.baseUrl server Fixture.as_string
                (lit "ada@example.org") (lit "pw")
                (Api.World (Api.api Sample.client)
                   [Api.HttpRequest
                      (Sample.baseUrl ++ lit "/api/v1/auth/register")
                      Api.POST
                      (Session.json_headers (Api.api Sample.client))
                      (Api.JsonBody
                         (AuthActions.register_data (lit "ada@example.org")
                            (lit "pw") None))])).2);
    [by vm_compute | reflexivity | by vm_compute | reflexivity].
Defined.

Lemma handleSearch_displays_witness :
  let w := Sample.search_page (lit "tax") [lit "vwl"] [lit "vwl"] in
  let w' := (SearchPage.handleSearch Sample.baseUrl Sample.quiet_net w).2 in
  SearchPage.results (SearchPage.page w') = JArr [].
Proof.
  intros w w'. subst w'.
  destruct (handleSearch_displays Sample.baseUrl Sample.quiet_net w)
    as (req & _ & ->); [by vm_compute | by left | reflexivity].
Defined.

Lemma delete_answer_without_json_witness :
  (DocstoreStore.deleteDocstore Sample.baseUrl Fixture.no_content (lit "vwl")
     Fixture.store_world).1
  = Threw (Thrown SyntaxError EngineInvalidJson).
Proof.
  by rewrite (delete_answer_without_json Sample.baseUrl Fixture.no_content
                (lit "vwl") Fixture.store_world (Api.Response 204 None)
                eq_refl eq_refl eq_refl).
Defined.

Lemma create_then_delete_witness :
  let server := Fixture.answering (JObj [(lit "id", JStr (lit "finance"))]) in
  let w := Fixture.store_world in
  let w1 := (DocstoreActions.createDocstore Sample.baseUrl server
               Fixture.as_Docstore (JObj [(lit "name", JStr (lit "Finance"))])
               w).2 in
  let w2 := (DocstoreActions.deleteDocstore Sample.baseUrl server
               (lit "finance") w1).2 in
  DocstoreStore.docstores (DocstoreStore.state w2)
  = DocstoreStore.docstores (DocstoreStore.state w).
Proof.
  intros server w w1 w2.
  refine (proj2 (proj2
            (create_then_delete Sample.baseUrl server Fixture.as_Docstore
               (JObj [(lit "name", JStr (lit "Finance"))]) w w1 w2
               (Sample.docstore (lit "finance")) _ _)) _).
  - by vm_compute.
  - by vm_compute.
  - intros x Hx. apply list_elem_of_singleton in Hx as ->. by vm_compute.
Defined.

Lemma update_in_place_witness :
  let server := Fixture.answering (JObj [(lit "id", JStr (lit "vwl"))]) in
  let w := Fixture.store_world in
  let w1 := (DocstoreActions.updateDocstore Sample.baseUrl server
               Fixture.as_Docstore (lit "vwl")
               (JObj [(lit "description", JStr (lit "Economics"))]) w).2 in
  length (DocstoreStore.docstores (DocstoreStore.state w1)) = 1.
Proof.
  intros server w w1.
  destruct (update_in_place Sample.baseUrl server Fixture.as_Docstore
              (lit "vwl") (JObj [(lit "description", JStr (lit "Economics"))])
              w w1) as (d & Hlen & _); [by vm_compute | exact Hlen].
Defined.

Lemma handleUpload_failure_witness :
  let run := DetailPage.handleUpload Sample.baseUrl Fixture.down
               Fixture.as_Docstore (lit "vwl") in
  run (Fixture.detail_page []) = (Returned tt, Fixture.detail_page []) ∧
  DetailPage.alerts (run (Fixture.detail_page [Fixture.report])).2
  = [lit "Failed to upload documents. Please try again."].
Proof.
  intros run. split.
  - exact (proj1 (handleUpload_failure Sample.baseUrl Fixture.down
                    Fixture.as_Docstore (lit "vwl") (Fixture.detail_page [])
                    Fixture.failure) eq_refl).
  - subst run.
    by rewrite (proj2 (handleUpload_failure Sample.baseUrl Fixture.down
                         Fixture.as_Docstore (lit "vwl")
                         (Fixture.detail_page [Fixture.report])
                         Fixture.failure)
                  ltac:(done) eq_refl).
Defined.

Lemma handleUpload_success_witness :
  let w := Fixture.detail_page [Fixture.report] in
  let w' := (DetailPage.handleUpload Sample.baseUrl Fixture.storing
               Fixture.as_Docstore (lit "vwl") w).2 in
  DetailPage.documents (DetailPage.page w') = JArr [JStr (lit "report.pdf")] ∧
  DetailPage.selectedFiles (DetailPage.page w') = [] ∧
  DetailPage.fileInput (DetailPage.page w') = Some [].
Proof.
  intros w w'. subst w'.
  pose proof (handleUpload_success Sample.baseUrl Fixture.storing
                Fixture.as_Docstore (lit "vwl") w (JArr [])
                ltac:(done) eq_refl) as H.
  destruct (DetailPage.handleUpload _ _ _ _ _) as [r w'].
  destruct H as (_ & _ & _ & Hpage). cbn [snd]. rewrite Hpage.
  by vm_compute.
Defined.

Lemma handleDeleteDocument_failure_witness :
  let w := Fixture.detail_page [] in
  let w' := (DetailPage.handleDeleteDocument Sample.baseUrl Fixture.down
               Fixture.as_Docstore (lit "vwl") true (lit "d-1") w).2 in
  DetailPage.alerts w'
  = [lit "Failed to delete document. Please try again."] ∧
  length (DetailPage.calls w') = 1.
Proof.
  intros w w'. subst w'.
  by rewrite (proj2 (handleDeleteDocument_failure Sample.baseUrl Fixture.down
                       Fixture.as_Docstore (lit "vwl") (lit "d-1") w
                       Fixture.failure) eq_refl).
Defined.

Lemma handleDeleteDocument_success_witness :
  let w := Fixture.detail_page [] in
  let w' := (DetailPage.handleDeleteDocument Sample.baseUrl Fixture.storing
               Fixture.as_Docstore (lit "vwl") true (lit "d-1") w).2 in
  DetailPage.alerts w' = [] ∧ length (DetailPage.calls w') = 3.
Proof.
  intros w w'. subst w'.
  pose proof (handleDeleteDocument_success Sample.baseUrl Fixture.storing
                Fixture.as_Docstore (lit "vwl") (lit "d-1") w (JArr [])
                eq_refl) as H.
  destruct (DetailPage.handleDeleteDocument _ _ _ _ _ _ _) as [r w'].
  destruct H as (_ & Hcalls & Halerts & _). cbn [snd].
  rewrite Hcalls, Halerts. by vm_compute.
Defined.
